(** * leafletviz: the choropleth visual of [src/visual.ts]

    A shallow embedding of the [Visual] class (score classifier, data
    binder, boundary layer manager, refresh scheduler, lifecycle) and the
    properties proved about it.

    JavaScript numbers are IEEE 754 binary64 values; they are modelled with
    the Standard Library's [spec_float] and its correctly rounded
    operations at precision 53 and maximal exponent 1024.  Objects that the
    code shares by reference (the feature group, the remote layers) live in
    an explicit store.  Part I holds the definitions, Part II the proofs. *)

From Stdlib Require Import ZArith Lia Bool List.
From Stdlib Require Import Floats.SpecFloat.
From stdpp Require Import gmap strings list.

(* ===================================================================== *)
(** * Part I: definitions *)
(* ===================================================================== *)

(** ** JavaScript numbers *)

Local Open Scope Z_scope.

Definition number : Type := spec_float.

(** A [number] is a well-formed binary64 value. *)
Definition valid (x : number) : bool := valid_binary 53 1024 x.

Definition mul : number -> number -> number := SFmul 53 1024.
Definition add : number -> number -> number := SFadd 53 1024.
Definition div : number -> number -> number := SFdiv 53 1024.

(** The number denoted by an integer literal. *)
Definition of_Z (n : Z) : number := binary_normalize 53 1024 n 0 false.

(** The number denoted by the decimal literal [n / 10^k] (correctly
    rounded, as the language requires). *)
Definition lit (n : Z) (k : nat) : number := div (of_Z n) (of_Z (10 ^ Z.of_nat k)).

Definition js0 : number := S754_zero false.
Definition js1 : number := S754_finite false 4503599627370496 (-52).
Definition js9 : number := S754_finite false 5066549580791808 (-49).
Definition js10 : number := S754_finite false 5629499534213120 (-49).
Definition NaN : number := S754_nan.

Definition is_nan (x : number) : bool :=
  match x with S754_nan => true | _ => false end.

(** [a < b] and [a > b] on numbers (false as soon as one side is NaN). *)
Definition js_lt (a b : number) : bool := SFltb a b.

(** [Math.min(x, y)]: NaN if either is NaN, and -0 counts as below +0. *)
Definition Math_min (x y : number) : number :=
  match SFcompare x y with
  | None => S754_nan
  | Some Lt => x
  | Some Gt => y
  | Some Eq => match x with S754_zero true => x | _ => y end
  end.

(** [Math.max(x, y)]: NaN if either is NaN, and +0 counts as above -0. *)
Definition Math_max (x y : number) : number :=
  match SFcompare x y with
  | None => S754_nan
  | Some Gt => x
  | Some Lt => y
  | Some Eq => match x with S754_zero false => x | _ => y end
  end.

(** The integer [floor (+/- m * 2^e)]. *)
Definition floorZ (s : bool) (m : positive) (e : Z) : Z :=
  if 0 <=? e then cond_Zopp s (Zpos m) * 2 ^ e
  else cond_Zopp s (Zpos m) / 2 ^ (- e).

(** [Math.floor(x)]: NaN, the infinities and both zeros are returned as
    they are; a finite value gives the number of its integer floor (the
    floor of a positive value below one is +0). *)
Definition Math_floor (x : number) : number :=
  match x with
  | S754_finite s m e => binary_normalize 53 1024 (floorZ s m e) 0 s
  | _ => x
  end.

Definition is_integer (m : positive) (e : Z) : bool :=
  (0 <=? e) || (Zpos m mod 2 ^ (- e) =? 0).

(** The array index a number denotes when used as a property key: a
    non-negative integer below [2^32 - 1] (both zeros give index 0);
    every other number names an ordinary property. *)
Definition array_index (x : number) : option nat :=
  match x with
  | S754_zero _ => Some 0%nat
  | S754_finite false m e =>
      if is_integer m e && (floorZ false m e <? 4294967295)
      then Some (Z.to_nat (floorZ false m e)) else None
  | _ => None
  end.

(** [a[x]] on an array literal: [None] is [undefined]. *)
Definition array_get {A : Type} (a : list A) (x : number) : option A :=
  match array_index x with
  | Some i => a !! i
  | None => None
  end.

(** *** Values and rounding on a common scale (used by the proofs) *)

(** Magnitude of a finite number in units of [2^-1074], the smallest
    positive binary64 value. *)
Definition ulps (x : number) : Z :=
  match x with
  | S754_finite _ m e => Zpos m * 2 ^ (e + 1074)
  | _ => 0
  end.

(** Round to nearest, ties to even, of [M / 2^n]. *)
Definition rne (M n : Z) : Z :=
  let q := M / 2 ^ n in
  match 2 * (M mod 2 ^ n) ?= 2 ^ n with
  | Lt => q
  | Eq => if Z.even q then q else q + 1
  | Gt => q + 1
  end.

(** Rounding of the integer [W] to 53 significant bits, never below bit
    [c] (the subnormal threshold on the scale of [W]). *)
Definition round_at (c W : Z) : Z :=
  let n := Z.max (Zdigits2 W - 53) c in rne W n * 2 ^ n.

(** ** Score Classifier: [Visual.getColorByScore] *)

Definition colors : list string :=
  [ "#FF0000"; "#FF3800"; "#FF7000"; "#FFA800"; "#FFE000";
    "#E0FF00"; "#A8FF00"; "#70FF00"; "#38FF00"; "#00FF00" ]%string.

Definition normalized (score : number) : number :=
  Math_max js0 (Math_min js1 score).

Definition index (score : number) : number :=
  Math_floor (mul (normalized score) js10).

Definition clampedIndex (score : number) : number :=
  Math_max js0 (Math_min js9 (index score)).

Definition getColorByScore (score : number) : option string :=
  array_get colors (clampedIndex score).

(** The contract in the specification's words: clamp the score to [0,1],
    take the floor of ten times it, clamp that to [0,9]. *)
Definition clamp (lo hi s : number) : number :=
  if js_lt s lo then lo else if js_lt hi s then hi else s.

Definition floor_int (x : number) : option Z :=
  match x with
  | S754_zero _ => Some 0
  | S754_finite s m e => Some (floorZ s m e)
  | _ => None
  end.

Definition bucket_index (s : number) : option Z :=
  (fun n => Z.max 0 (Z.min 9 n)) <$> floor_int (mul (clamp js0 js1 s) js10).

(** Bucket of a score in [0,1] given by its magnitude [u] in units of
    [2^-1074]: ten times [u], rounded as the multiplication rounds it. *)
Definition bucket_of_ulps (u : Z) : Z :=
  Z.min 9 (round_at 49 (u * 5629499534213120) / 2 ^ 49 / 2 ^ 1074).

Close Scope Z_scope.

(** ** Boundary Layer Manager: the filter of the remote query *)

Local Open Scope string_scope.

(** [Array.prototype.join]: the elements from left to right, the
    separator before every element but the first. *)
Fixpoint join_from (sep : string) (k : nat) (a : list string) (R : string) : string :=
  match a with
  | [] => R
  | x :: rest =>
      join_from sep (S k) rest
        ((match k with O => R | S _ => R +:+ sep end) +:+ x)
  end.

Definition Array_join (sep : string) (a : list string) : string :=
  join_from sep 0 a EmptyString.

(** The template literal [`'${code}'`]. *)
Definition quoted (code : string) : string := "'" +:+ code +:+ "'".

(** [const sa1s = this.saones.map(code => `'${code}'`).join(',')]. *)
Definition sa1s (saones : list string) : string :=
  Array_join "," (map quoted saones).

(** [where: `sa1_code_2021 IN (${sa1s})`]. *)
Definition whereClause (saones : list string) : string :=
  "sa1_code_2021 IN (" +:+ sa1s saones +:+ ")".

(** The filter in the specification's words: every code between single
    quotes, the quoted codes separated by commas. *)
Definition in_list (codes : list string) : string :=
  String.concat "," (map (fun c => "'" +:+ c +:+ "'") codes).

(** Characters of the quoted codes and of the commas between them. *)
Fixpoint in_list_length (codes : list string) : nat :=
  match codes with
  | [] => 0
  | [c] => String.length c + 2
  | c :: rest => String.length c + 2 + 1 + in_list_length rest
  end.

(** The comma that separates a non-empty run of codes from its neighbour. *)
Definition comma_if (codes : list string) : string :=
  match codes with [] => EmptyString | _ => "," end.

Definition tims : string :=
  "https://geo.abs.gov.au/arcgis/rest/services/ASGS2021/SA1/FeatureServer/0".

Close Scope string_scope.

(** ** Host data: the categorical data view *)

Inductive PrimitiveValue : Type :=
  | PVString (s : string)
  | PVNumber (x : number)
  | PVBoolean (b : bool)
  | PVDate (t : number)
  | PVNull.

(** Conversions of the language that the repository does not define:
    the text of a number and of a date, the number a text denotes, and
    [Number.prototype.toFixed]. *)
Class JsRuntime : Type := {
  Number_toString : number -> string;
  Date_toString : number -> string;
  String_toNumber : string -> number;
  Number_toFixed : nat -> number -> string
}.

(** A column of the data view ([.values]). *)
Record DataViewColumn : Type := { values : list PrimitiveValue }.

(** [categorical.categories] and [categorical.values] (here [measures]);
    [None] is an absent property. *)
Record DataViewCategorical : Type := {
  categories : option (list DataViewColumn);
  measures : option (list DataViewColumn)
}.

Record DataView : Type := { categorical : option DataViewCategorical }.

Record VisualUpdateOptions : Type := { dataViews : option (list DataView) }.

(** The identifier the host builds with [withCategory(column, row)]. *)
Record SelectionId : Type := { sel_column : DataViewColumn; sel_row : nat }.

(** A polygon returned by the feature service, with the two property
    names its area code may come under. *)
Record Feature : Type := {
  sa1_code_2021 : option PrimitiveValue;
  SA1_CODE_2021 : option PrimitiveValue
}.

Section Conversions.
Context `{JsRuntime}.

(** [String(v)]; [None] is [undefined]. *)
Definition JsString (v : option PrimitiveValue) : string :=
  match v with
  | None => "undefined"
  | Some (PVString s) => s
  | Some (PVNumber x) => Number_toString x
  | Some (PVBoolean true) => "true"
  | Some (PVBoolean false) => "false"
  | Some (PVDate t) => Date_toString t
  | Some PVNull => "null"
  end.

(** The number a value is coerced to by [Math.min]. *)
Definition ToNumber (v : PrimitiveValue) : number :=
  match v with
  | PVString s => String_toNumber s
  | PVNumber x => x
  | PVBoolean true => js1
  | PVBoolean false => js0
  | PVDate t => t
  | PVNull => js0
  end.
End Conversions.

(** Truthiness, and [a || b]. *)
Definition truthy (v : option PrimitiveValue) : bool :=
  match v with
  | None => false
  | Some (PVString s) => negb (String.eqb s EmptyString)
  | Some (PVNumber x) =>
      match x with S754_zero _ | S754_nan => false | _ => true end
  | Some (PVBoolean b) => b
  | Some (PVDate _) => true
  | Some PVNull => false
  end.

Definition js_or (a b : option PrimitiveValue) : option PrimitiveValue :=
  if truthy a then a else b.

(** ** The state of a [Visual] and of the page around it *)

(** How a call ends: normally, or by throwing. *)
Inductive completion : Type :=
  | Normal
  | Throw (error : string).

(** The callbacks [update] hands to [requestAnimationFrame]. *)
Inductive FrameCallback : Type :=
  | CbInitLayersAndUI
  | CbInvalidateSize.

(** A remote layer made by [LEsri.featureLayer]. *)
Record EsriFeatureLayer : Type := {
  url : string;
  where_ : string;
  pane : string;
  refreshes : nat
}.

(** The fields of [this]. Objects are held by reference: [fglayer] and
    [saonesLayer] are positions in the stores of the page, [legend] the
    number of a legend control. *)
Record Visual : Type := {
  inited : bool;
  saones : list string;
  cands : list PrimitiveValue;
  scoreMap : gmap string (option PrimitiveValue);
  selectionIdMap : gmap string SelectionId;
  autoRefreshTimer : option Z;
  fglayer : option nat;
  layerControl : option (list (nat * string));
  legend : option nat;
  saonesLayer : option nat
}.

(** What the code reaches outside [this]: the console, the pending
    animation-frame callbacks, the interval timers of the window, the
    visibility listener of the document, the Leaflet map (its feature
    groups, legend controls and resize requests), the store of feature
    groups and of remote layers, and the selections sent to the host. *)
Record Page : Type := {
  console : list string;
  frames : list FrameCallback;
  intervals : list (Z * number);
  lastHandle : Z;
  visibilityListener : bool;
  groups : list (list nat);
  mapLayers : list nat;
  featureLayers : list EsriFeatureLayer;
  legendCount : nat;
  mapLegends : list nat;
  resizes : nat;
  mapRemoved : bool;
  selections : list (SelectionId * bool)
}.

Record World : Type := { this : Visual; page : Page }.

(** Field updates of [this]. *)
Definition set_inited (b : bool) (v : Visual) : Visual :=
  {| inited := b; saones := saones v; cands := cands v; scoreMap := scoreMap v;
     selectionIdMap := selectionIdMap v; autoRefreshTimer := autoRefreshTimer v;
     fglayer := fglayer v; layerControl := layerControl v; legend := legend v;
     saonesLayer := saonesLayer v |}.
Definition set_saones (l : list string) (v : Visual) : Visual :=
  {| inited := inited v; saones := l; cands := cands v; scoreMap := scoreMap v;
     selectionIdMap := selectionIdMap v; autoRefreshTimer := autoRefreshTimer v;
     fglayer := fglayer v; layerControl := layerControl v; legend := legend v;
     saonesLayer := saonesLayer v |}.
Definition set_cands (l : list PrimitiveValue) (v : Visual) : Visual :=
  {| inited := inited v; saones := saones v; cands := l; scoreMap := scoreMap v;
     selectionIdMap := selectionIdMap v; autoRefreshTimer := autoRefreshTimer v;
     fglayer := fglayer v; layerControl := layerControl v; legend := legend v;
     saonesLayer := saonesLayer v |}.
Definition set_tables (sm : gmap string (option PrimitiveValue))
    (im : gmap string SelectionId) (v : Visual) : Visual :=
  {| inited := inited v; saones := saones v; cands := cands v; scoreMap := sm;
     selectionIdMap := im; autoRefreshTimer := autoRefreshTimer v;
     fglayer := fglayer v; layerControl := layerControl v; legend := legend v;
     saonesLayer := saonesLayer v |}.
Definition set_autoRefreshTimer (t : option Z) (v : Visual) : Visual :=
  {| inited := inited v; saones := saones v; cands := cands v; scoreMap := scoreMap v;
     selectionIdMap := selectionIdMap v; autoRefreshTimer := t;
     fglayer := fglayer v; layerControl := layerControl v; legend := legend v;
     saonesLayer := saonesLayer v |}.
Definition set_fglayer (g : option nat) (v : Visual) : Visual :=
  {| inited := inited v; saones := saones v; cands := cands v; scoreMap := scoreMap v;
     selectionIdMap := selectionIdMap v; autoRefreshTimer := autoRefreshTimer v;
     fglayer := g; layerControl := layerControl v; legend := legend v;
     saonesLayer := saonesLayer v |}.
Definition set_layerControl (c : option (list (nat * string))) (v : Visual) : Visual :=
  {| inited := inited v; saones := saones v; cands := cands v; scoreMap := scoreMap v;
     selectionIdMap := selectionIdMap v; autoRefreshTimer := autoRefreshTimer v;
     fglayer := fglayer v; layerControl := c; legend := legend v;
     saonesLayer := saonesLayer v |}.
Definition set_legend (l : option nat) (v : Visual) : Visual :=
  {| inited := inited v; saones := saones v; cands := cands v; scoreMap := scoreMap v;
     selectionIdMap := selectionIdMap v; autoRefreshTimer := autoRefreshTimer v;
     fglayer := fglayer v; layerControl := layerControl v; legend := l;
     saonesLayer := saonesLayer v |}.
Definition set_saonesLayer (l : option nat) (v : Visual) : Visual :=
  {| inited := inited v; saones := saones v; cands := cands v; scoreMap := scoreMap v;
     selectionIdMap := selectionIdMap v; autoRefreshTimer := autoRefreshTimer v;
     fglayer := fglayer v; layerControl := layerControl v; legend := legend v;
     saonesLayer := l |}.

(** Field updates of the page. *)
Definition set_console (c : list string) (p : Page) : Page :=
  {| console := c; frames := frames p; intervals := intervals p;
     lastHandle := lastHandle p; visibilityListener := visibilityListener p;
     groups := groups p; mapLayers := mapLayers p; featureLayers := featureLayers p;
     legendCount := legendCount p; mapLegends := mapLegends p; resizes := resizes p;
     mapRemoved := mapRemoved p; selections := selections p |}.
Definition set_frames (f : list FrameCallback) (p : Page) : Page :=
  {| console := console p; frames := f; intervals := intervals p;
     lastHandle := lastHandle p; visibilityListener := visibilityListener p;
     groups := groups p; mapLayers := mapLayers p; featureLayers := featureLayers p;
     legendCount := legendCount p; mapLegends := mapLegends p; resizes := resizes p;
     mapRemoved := mapRemoved p; selections := selections p |}.
Definition set_timers (i : list (Z * number)) (h : Z) (p : Page) : Page :=
  {| console := console p; frames := frames p; intervals := i;
     lastHandle := h; visibilityListener := visibilityListener p;
     groups := groups p; mapLayers := mapLayers p; featureLayers := featureLayers p;
     legendCount := legendCount p; mapLegends := mapLegends p; resizes := resizes p;
     mapRemoved := mapRemoved p; selections := selections p |}.
Definition set_visibilityListener (b : bool) (p : Page) : Page :=
  {| console := console p; frames := frames p; intervals := intervals p;
     lastHandle := lastHandle p; visibilityListener := b;
     groups := groups p; mapLayers := mapLayers p; featureLayers := featureLayers p;
     legendCount := legendCount p; mapLegends := mapLegends p; resizes := resizes p;
     mapRemoved := mapRemoved p; selections := selections p |}.
Definition set_groups (g : list (list nat)) (p : Page) : Page :=
  {| console := console p; frames := frames p; intervals := intervals p;
     lastHandle := lastHandle p; visibilityListener := visibilityListener p;
     groups := g; mapLayers := mapLayers p; featureLayers := featureLayers p;
     legendCount := legendCount p; mapLegends := mapLegends p; resizes := resizes p;
     mapRemoved := mapRemoved p; selections := selections p |}.
Definition set_mapLayers (l : list nat) (p : Page) : Page :=
  {| console := console p; frames := frames p; intervals := intervals p;
     lastHandle := lastHandle p; visibilityListener := visibilityListener p;
     groups := groups p; mapLayers := l; featureLayers := featureLayers p;
     legendCount := legendCount p; mapLegends := mapLegends p; resizes := resizes p;
     mapRemoved := mapRemoved p; selections := selections p |}.
Definition set_featureLayers (l : list EsriFeatureLayer) (p : Page) : Page :=
  {| console := console p; frames := frames p; intervals := intervals p;
     lastHandle := lastHandle p; visibilityListener := visibilityListener p;
     groups := groups p; mapLayers := mapLayers p; featureLayers := l;
     legendCount := legendCount p; mapLegends := mapLegends p; resizes := resizes p;
     mapRemoved := mapRemoved p; selections := selections p |}.
Definition set_legends (n : nat) (l : list nat) (p : Page) : Page :=
  {| console := console p; frames := frames p; intervals := intervals p;
     lastHandle := lastHandle p; visibilityListener := visibilityListener p;
     groups := groups p; mapLayers := mapLayers p; featureLayers := featureLayers p;
     legendCount := n; mapLegends := l; resizes := resizes p;
     mapRemoved := mapRemoved p; selections := selections p |}.
Definition set_resizes (n : nat) (p : Page) : Page :=
  {| console := console p; frames := frames p; intervals := intervals p;
     lastHandle := lastHandle p; visibilityListener := visibilityListener p;
     groups := groups p; mapLayers := mapLayers p; featureLayers := featureLayers p;
     legendCount := legendCount p; mapLegends := mapLegends p; resizes := n;
     mapRemoved := mapRemoved p; selections := selections p |}.
Definition set_mapRemoved (b : bool) (p : Page) : Page :=
  {| console := console p; frames := frames p; intervals := intervals p;
     lastHandle := lastHandle p; visibilityListener := visibilityListener p;
     groups := groups p; mapLayers := mapLayers p; featureLayers := featureLayers p;
     legendCount := legendCount p; mapLegends := mapLegends p; resizes := resizes p;
     mapRemoved := b; selections := selections p |}.
Definition set_selections (s : list (SelectionId * bool)) (p : Page) : Page :=
  {| console := console p; frames := frames p; intervals := intervals p;
     lastHandle := lastHandle p; visibilityListener := visibilityListener p;
     groups := groups p; mapLayers := mapLayers p; featureLayers := featureLayers p;
     legendCount := legendCount p; mapLegends := mapLegends p; resizes := resizes p;
     mapRemoved := mapRemoved p; selections := s |}.

Definition on_this (f : Visual -> Visual) (w : World) : World :=
  {| this := f (this w); page := page w |}.
Definition on_page (f : Page -> Page) (w : World) : World :=
  {| this := this w; page := f (page w) |}.

(** ** Page primitives *)

Definition console_log (msg : string) (w : World) : World :=
  on_page (fun p => set_console (console p ++ [msg]) p) w.

Definition requestAnimationFrame (cb : FrameCallback) (w : World) : World :=
  on_page (fun p => set_frames (frames p ++ [cb]) p) w.

(** [window.setInterval] hands out the next handle, a positive integer. *)
Definition setInterval (ms : number) (w : World) : Z * World :=
  let h := (lastHandle (page w) + 1)%Z in
  (h, on_page (fun p => set_timers (intervals p ++ [(h, ms)]) h p) w).

(** [clearInterval(h)] cancels the timer with handle [h], if any. *)
Definition clearInterval (h : Z) (w : World) : World :=
  on_page (fun p =>
    set_timers (List.filter (fun t => negb (fst t =? h)%Z) (intervals p))
               (lastHandle p) p) w.

(** Truthiness of [this.autoRefreshTimer : number | null]. *)
Definition timer_set (t : option Z) : option Z :=
  match t with
  | Some h => if (h =? 0)%Z then None else Some h
  | None => None
  end.

(** [map.hasLayer(group)]. *)
Definition hasLayer (g : nat) (w : World) : bool :=
  existsb (Nat.eqb g) (mapLayers (page w)).

(** [layer.refresh()] on the remote layer at position [l]. *)
Definition refresh (l : nat) (w : World) : World :=
  on_page (fun p =>
    set_featureLayers
      (alter (fun L => {| url := url L; where_ := where_ L; pane := pane L;
                          refreshes := S (refreshes L) |}) l (featureLayers p)) p) w.

(** ** Refresh Scheduler *)

(** [Visual.refreshAllLayers]. *)
Definition refreshAllLayers (w : World) : World :=
  match saonesLayer (this w) with
  | Some l => refresh l w
  | None => w
  end.

(** [Visual.startAutoRefresh]. *)
Definition startAutoRefresh (ms : number) (w : World) : World :=
  let w1 := match timer_set (autoRefreshTimer (this w)) with
            | Some h => clearInterval h w
            | None => w
            end in
  if js_lt js0 ms then
    let '(h, w2) := setInterval ms w1 in
    on_this (set_autoRefreshTimer (Some h)) w2
  else w1.

(** [Visual.onVisibilityRefresh], given whether the document is visible. *)
Definition onVisibilityRefresh (visible : bool) (w : World) : World :=
  if visible then refreshAllLayers w else w.

(** ** Legend *)

(** [Visual.addLegend]: a new legend control is put on the map and kept
    in [this.legend]. *)
Definition addLegend (w : World) : World :=
  let id := legendCount (page w) in
  on_this (set_legend (Some id))
    (on_page (fun p => set_legends (S id) (mapLegends p ++ [id]) p) w).

(** [Visual.updateLegend]. *)
Definition updateLegend (w : World) : World :=
  match legend (this w) with
  | Some _ => w
  | None => addLegend w
  end.

(** ** Boundary Layer Manager *)

(** [Visual.updateSaonesLayer]. *)
Definition updateSaonesLayer (w : World) : World :=
  let w1 :=
    match fglayer (this w) with
    | Some g =>
        if hasLayer g w
        then on_page (fun p => set_groups (<[g := []]> (groups p)) p) w
        else w
    | None =>
        let g := length (groups (page w)) in
        let wa := on_page (fun p =>
                    set_mapLayers (mapLayers p ++ [g])
                      (set_groups (groups p ++ [[]]) p)) w in
        let wb := on_this (set_fglayer (Some g)) wa in
        match layerControl (this wb) with
        | Some overlays =>
            on_this (set_layerControl (Some (overlays ++ [(g, "SA1 Boundaries")]))) wb
        | None => wb
        end
    end in
  let l := length (featureLayers (page w1)) in
  let layer := {| url := tims; where_ := whereClause (saones (this w1));
                  pane := "workzones"; refreshes := 0 |} in
  let w2 := on_page (fun p => set_featureLayers (featureLayers p ++ [layer]) p) w1 in
  let w3 := match fglayer (this w2) with
            | Some g => on_page (fun p =>
                          set_groups (alter (fun children => children ++ [l]) g (groups p)) p) w2
            | None => w2
            end in
  let w4 := on_this (set_saonesLayer (Some l)) w3 in
  refresh l w4.

(** ** Lifecycle *)

(** [6 * 60 * 60 * 1000]. *)
Definition sixHours : number :=
  mul (mul (mul (of_Z 6) (of_Z 60)) (of_Z 60)) (of_Z 1000).

(** [Visual.initLayersAndUI]. *)
Definition initLayersAndUI (w : World) : World :=
  let w1 := on_this (set_layerControl (Some [])) w in
  let w2 := addLegend w1 in
  let w3 := startAutoRefresh sixHours w2 in
  let w4 := on_page (set_visibilityListener true) w3 in
  if (0 <? length (saones (this w4)))%nat then updateSaonesLayer w4 else w4.

(** The loop of [update] that fills the two tables, from row [i] on. *)
Fixpoint storeRows (column : DataViewColumn) (scores : list PrimitiveValue)
    (codes : list string) (i : nat)
    (sm : gmap string (option PrimitiveValue)) (im : gmap string SelectionId)
    : gmap string (option PrimitiveValue) * gmap string SelectionId :=
  match codes with
  | [] => (sm, im)
  | sa1Code :: rest =>
      storeRows column scores rest (S i)
        (<[sa1Code := scores !! i]> sm)
        (<[sa1Code := {| sel_column := column; sel_row := i |}]> im)
  end.

(** [options.dataViews && options.dataViews[0]]. *)
Definition firstDataView (options : VisualUpdateOptions) : option DataView :=
  match dataViews options with
  | Some (dataView :: _) => Some dataView
  | _ => None
  end.

Section Lifecycle.
Context `{JsRuntime}.

(** [Visual.update]. *)
Definition update (options : VisualUpdateOptions) (w : World) : World * completion :=
  let w :=
    if inited (this w) then w
    else requestAnimationFrame CbInitLayersAndUI (on_this (set_inited true) w) in
  let w := requestAnimationFrame CbInvalidateSize w in
  match firstDataView options ≫= categorical with
  | None => (console_log "No data" w, Normal)
  | Some categorical =>
      match categories categorical with
      | None => (console_log "Not enough categories" w, Normal)
      | Some cats =>
          if (length cats <? 1)%nat
          then (console_log "Not enough categories" w, Normal)
          else
            match cats !! 0%nat, cats !! 1%nat with
            | Some column0, Some column1 =>
                let w := on_this (set_cands (values column1)) w in
                let w := on_this (set_saones
                           (map (fun code => JsString (Some code)) (values column0))) w in
                let w :=
                  match measures categorical with
                  | Some (scores :: _) =>
                      let '(sm, im) :=
                        storeRows column0 (values scores) (saones (this w)) 0 ∅ ∅ in
                      console_log "Scores stored (expecting 0-1 range)"
                        (on_this (set_tables sm im) w)
                  | _ => w
                  end in
                let w :=
                  if inited (this w) && (0 <? length (saones (this w)))%nat
                  then updateLegend (updateSaonesLayer w)
                  else w in
                (w, Normal)
            | _, _ =>
                (w, Throw "TypeError: Cannot read properties of undefined (reading 'values')")
            end
      end
  end.

(** [workzoneLinePolyStyle]: the fill colour of a polygon ([None] is
    [undefined]). *)
Definition sa1Code (feature : Feature) : option PrimitiveValue :=
  js_or (sa1_code_2021 feature) (SA1_CODE_2021 feature).

Definition scoreOf (feature : Feature) (w : World) : option PrimitiveValue :=
  mjoin (scoreMap (this w) !! JsString (sa1Code feature)).

Definition fillColor (feature : Feature) (w : World) : option string :=
  match scoreOf feature w with
  | None => Some "#cccccc"
  | Some score => getColorByScore (ToNumber score)
  end.

(** The click handler [workzoneEachFeature] installs: it keeps the
    selection identifier read when the polygon was loaded (in world
    [w0]) and runs in the current world. *)
Definition click (feature : Feature) (w0 : World) (ctrlKey metaKey : bool)
    (w : World) : World :=
  match selectionIdMap (this w0) !! JsString (sa1Code feature) with
  | Some selectionId =>
      console_log ("Selected SA1: " +:+ JsString (sa1Code feature))
        (on_page (fun p =>
           set_selections (selections p ++ [(selectionId, ctrlKey || metaKey)]) p) w)
  | None => w
  end.
End Lifecycle.

(** [Visual.destroy]. *)
Definition destroy (w : World) : World :=
  let w1 := match timer_set (autoRefreshTimer (this w)) with
            | Some h => clearInterval h w
            | None => w
            end in
  let w2 := on_page (set_visibilityListener false) w1 in
  let w3 := match legend (this w2) with
            | Some id =>
                on_page (fun p =>
                  set_legends (legendCount p)
                    (List.filter (fun k => negb (Nat.eqb k id)) (mapLegends p)) p) w2
            | None => w2
            end in
  on_page (set_mapRemoved true) w3.

(** The state the constructor leaves on a fresh page. *)
Definition initialWorld : World :=
  {| this := {| inited := false; saones := []; cands := []; scoreMap := ∅;
                selectionIdMap := ∅; autoRefreshTimer := None; fglayer := None;
                layerControl := None; legend := None; saonesLayer := None |};
     page := {| console := []; frames := []; intervals := []; lastHandle := 0;
                visibilityListener := false; groups := []; mapLayers := [];
                featureLayers := []; legendCount := 0; mapLegends := [];
                resizes := 0; mapRemoved := false; selections := [] |} |}.

(** ** What happens to a visual *)

Definition runCallback (cb : FrameCallback) (w : World) : World :=
  match cb with
  | CbInitLayersAndUI => initLayersAndUI w
  | CbInvalidateSize => on_page (fun p => set_resizes (S (resizes p)) p) w
  end.

(** An animation frame runs the callbacks requested so far, in order. *)
Definition runFrame (w : World) : World :=
  fold_left (fun w cb => runCallback cb w) (frames (page w))
    (on_page (set_frames []) w).

(** A tick of the interval timer with handle [h], if it is active. *)
Definition tick (h : Z) (w : World) : World :=
  if existsb (fun t => (fst t =? h)%Z) (intervals (page w))
  then refreshAllLayers w else w.

Inductive Event : Type :=
  | EvUpdate (options : VisualUpdateOptions)
  | EvFrame
  | EvTick (h : Z)
  | EvVisibility (visible : bool).

Section Run.
Context `{JsRuntime}.

Definition step (w : World) (e : Event) : World :=
  match e with
  | EvUpdate options => fst (update options w)
  | EvFrame => runFrame w
  | EvTick h => tick h w
  | EvVisibility visible =>
      if visibilityListener (page w) then onVisibilityRefresh visible w else w
  end.

Definition run (es : list Event) (w : World) : World := fold_left step es w.
End Run.

(** The data view of a batch of rows: one column of area codes, one of
    candidate labels and, when [scores] is given, one of scores. *)
Definition batch (codes labels : list PrimitiveValue)
    (scores : option (list PrimitiveValue)) : VisualUpdateOptions :=
  {| dataViews := Some [ {| categorical := Some
       {| categories := Some [ {| values := codes |}; {| values := labels |} ];
          measures := match scores with
                      | Some s => Some [ {| values := s |} ]
                      | None => Some []
                      end |} |} ] |}.

(** ** Observers used to state the properties *)

(** The categorical part of the first data view, if there is one. *)
Definition categoricalOf (options : VisualUpdateOptions) : option DataViewCategorical :=
  firstDataView options ≫= categorical.

(** The category columns and the numeric columns a call supplies (none
    when the data view, its categorical part or the property is absent). *)
Definition categoryColumns (options : VisualUpdateOptions) : list DataViewColumn :=
  match categoricalOf options with
  | Some c => default [] (categories c)
  | None => []
  end.

Definition measureColumns (options : VisualUpdateOptions) : list DataViewColumn :=
  match categoricalOf options with
  | Some c => default [] (measures c)
  | None => []
  end.

(** What a call adds to the console. *)
Definition logged (w w' : World) : list string :=
  drop (length (console (page w))) (console (page w')).

(** The handles of the active interval timers. *)
Definition activeTimers (w : World) : list Z := map fst (intervals (page w)).

(** The timers of the page are those the visual holds: every active
    timer is the one in [this.autoRefreshTimer], handles are positive,
    never above the last one handed out, and not repeated. *)
Definition timers_ok (w : World) : Prop :=
  (0 <= lastHandle (page w))%Z /\
  NoDup (activeTimers w) /\
  forall h, h ∈ activeTimers w ->
    autoRefreshTimer (this w) = Some h /\ (0 < h <= lastHandle (page w))%Z.

(** The stores are consistent with the references into them: the feature
    group of [this], when there is one, is the only group ever made, is
    number 0, and is what the layer control lists. *)
Definition layers_ok (w : World) : Prop :=
  match fglayer (this w) with
  | Some g => g = 0 /\ length (groups (page w)) = 1 /\ mapLayers (page w) = [0]
  | None => groups (page w) = [] /\ mapLayers (page w) = []
  end /\
  match layerControl (this w) with
  | Some overlays =>
      overlays = [] \/
      (overlays = [(0, "SA1 Boundaries"%string)] /\ fglayer (this w) = Some 0)
  | None => True
  end.

(** The feature group exists and the layer control, if there is one,
    does not list it. *)
Definition unregistered (w : World) : Prop :=
  is_Some (fglayer (this w)) /\
  (layerControl (this w) = None \/ layerControl (this w) = Some []).

(** A runtime for closed examples whose cells are all text or whose
    numbers are only stored: none of its conversions is consulted there. *)
Definition textRuntime : JsRuntime :=
  {| Number_toString := fun _ => "NaN"%string;
     Date_toString := fun _ => "Invalid Date"%string;
     String_toNumber := fun _ => NaN;
     Number_toFixed := fun _ _ => "NaN"%string |}.

(** ** Stages of [update] and what an operation leaves alone *)

(** The world after the first two statements of [update]. *)
Definition scheduled (w : World) : World :=
  requestAnimationFrame CbInvalidateSize
    (if inited (this w) then w
     else requestAnimationFrame CbInitLayersAndUI (on_this (set_inited true) w)).

Section Stages.
Context `{JsRuntime}.

(** The world after the assignments of [this.cands] and [this.saones]. *)
Definition assigned (column0 column1 : DataViewColumn) (w : World) : World :=
  on_this (set_saones (map (fun code => JsString (Some code)) (values column0)))
    (on_this (set_cands (values column1)) (scheduled w)).
End Stages.

(** The world after the tables are filled, when there is a numeric column. *)
Definition stored (column0 : DataViewColumn) (scores : option DataViewColumn)
    (w : World) : World :=
  match scores with
  | Some scores =>
      let '(sm, im) := storeRows column0 (values scores) (saones (this w)) 0 ∅ ∅ in
      console_log "Scores stored (expecting 0-1 range)" (on_this (set_tables sm im) w)
  | None => w
  end.

(** The last statement of [update]. *)
Definition refreshed (w : World) : World :=
  if inited (this w) && (0 <? length (saones (this w)))
  then updateLegend (updateSaonesLayer w) else w.

(** What [updateSaonesLayer], the legend and the scheduler leave alone. *)
Definition same_data (w w' : World) : Prop :=
  saones (this w') = saones (this w) /\ cands (this w') = cands (this w) /\
  scoreMap (this w') = scoreMap (this w) /\
  selectionIdMap (this w') = selectionIdMap (this w) /\
  console (page w') = console (page w) /\ inited (this w') = inited (this w) /\
  selections (page w') = selections (page w).

(** The operation leaves the timers and their handle alone. *)
Definition same_timers (w w' : World) : Prop :=
  autoRefreshTimer (this w') = autoRefreshTimer (this w) /\
  intervals (page w') = intervals (page w) /\
  lastHandle (page w') = lastHandle (page w).

(** The operation leaves the feature group and the layer control alone. *)
Definition same_layers (w w' : World) : Prop :=
  fglayer (this w') = fglayer (this w) /\
  layerControl (this w') = layerControl (this w) /\
  groups (page w') = groups (page w) /\
  mapLayers (page w') = mapLayers (page w).

(** ** Inputs of the closed instances *)

(** The rows (A, cand, 0.2) and (B, cand, 0.8). *)
Definition rowsAB : VisualUpdateOptions :=
  batch [PVString "A"%string; PVString "B"] [PVString "cand"; PVString "cand"]
        (Some [PVNumber (lit 2 1); PVNumber (lit 8 1)]).

(** The row (C, cand, 0.5). *)
Definition rowsC : VisualUpdateOptions :=
  batch [PVString "C"] [PVString "cand"] (Some [PVNumber (lit 5 1)]).

(** The codes and labels of (C, cand) with no numeric column. *)
Definition codesC : VisualUpdateOptions :=
  batch [PVString "C"] [PVString "cand"] None.

(** A data view with the one category column [C] and no numeric column. *)
Definition oneColumnC : VisualUpdateOptions :=
  {| dataViews := Some [ {| categorical := Some
       {| categories := Some [ {| values := [PVString "C"] |} ];
          measures := None |} |} ] |}.

(** ** Legend Builder: the colour of a row of [addLegend] *)

(** [const step = 1.0 / 10]. *)
Definition legendStep : number := div js1 js10.

(** [this.getColorByScore(from + step / 2)] with [from = step * i], for
    the loop counter [i]. *)
Definition legendColor (i : Z) : option string :=
  getColorByScore (add (mul legendStep (of_Z i)) (div legendStep (of_Z 2))).

(** ** The legend controls of a run *)

Definition isInit (cb : FrameCallback) : bool :=
  match cb with CbInitLayersAndUI => true | CbInvalidateSize => false end.

(** How many of the callbacks are the deferred initialisation. *)
Definition pendingInits (cbs : list FrameCallback) : nat :=
  length (List.filter isInit cbs).

(** The legends when [k] initialisations are still to run: every legend
    made is on the map; before the first update there is none; while the
    initialisation is pending there is at most the one an update added;
    afterwards there are one or two, and [this.legend] is the last. *)
Definition legends_at (k : nat) (w : World) : Prop :=
  mapLegends (page w) = seq 0 (legendCount (page w)) /\
  match inited (this w), k with
  | false, 0 => legendCount (page w) = 0 /\ legend (this w) = None
  | true, 1 =>
      (legendCount (page w) = 0 /\ legend (this w) = None) \/
      (legendCount (page w) = 1 /\ legend (this w) = Some 0)
  | true, 0 =>
      (legendCount (page w) = 1 /\ legend (this w) = Some 0) \/
      (legendCount (page w) = 2 /\ legend (this w) = Some 1)
  | _, _ => False
  end.

Definition legends_ok (w : World) : Prop :=
  legends_at (pendingInits (frames (page w))) w.

(** The operation leaves the legends, the flag and the frame queue alone. *)
Definition same_legends (w w' : World) : Prop :=
  legend (this w') = legend (this w) /\
  legendCount (page w') = legendCount (page w) /\
  mapLegends (page w') = mapLegends (page w) /\
  inited (this w') = inited (this w) /\
  frames (page w') = frames (page w).

(** A polygon of the feature service with area code [code]. *)
Definition polygon (code : string) : Feature :=
  {| sa1_code_2021 := Some (PVString code); SA1_CODE_2021 := None |}.

(** A batch with two category columns, a numeric column and no row. *)
Definition noRows : VisualUpdateOptions := batch [] [] (Some []).

(** ** The running scheduler *)

(** The visual is initialised, no initialisation is pending, and the one
    timer of the page is the six-hour timer with handle 1, which the
    visual holds, beside the visibility listener. *)
Definition running (w : World) : Prop :=
  inited (this w) = true /\ pendingInits (frames (page w)) = 0 /\
  intervals (page w) = [(1%Z, sixHours)] /\ lastHandle (page w) = 1%Z /\
  autoRefreshTimer (this w) = Some 1%Z /\ visibilityListener (page w) = true.

(** ** The current remote layer *)

(** The current remote layer is the newest one and the feature group
    holds exactly it; before the first refresh of the boundary layer there
    is neither a remote layer nor a group. *)
Definition current_ok (w : World) : Prop :=
  match saonesLayer (this w) with
  | Some l => length (featureLayers (page w)) = S l /\ groups (page w) = [[l]]
  | None => length (featureLayers (page w)) = 0 /\ groups (page w) = []
  end.

(** What leaves the current layer, the number of remote layers and the
    groups alone. *)
Definition same_current (w w' : World) : Prop :=
  saonesLayer (this w') = saonesLayer (this w) /\
  length (featureLayers (page w')) = length (featureLayers (page w)) /\
  groups (page w') = groups (page w).

(* ===================================================================== *)
(** * Part II: proofs *)
(* ===================================================================== *)

(** ** Binary64 arithmetic *)

Section NumberFacts.
Local Open Scope Z_scope.

Lemma digits2_pos_bounds (p : positive) :
  2 ^ (Zpos (digits2_pos p) - 1) <= Zpos p < 2 ^ Zpos (digits2_pos p).
Proof.
  induction p as [p IH|p IH|]; cbn [digits2_pos].
  - rewrite Pos2Z.inj_succ, (Pos2Z.inj_xI p).
    replace (Z.succ (Zpos (digits2_pos p)) - 1) with (Z.succ (Zpos (digits2_pos p) - 1)) by lia.
    rewrite (Z.pow_succ_r 2 (Zpos (digits2_pos p) - 1)) by lia.
    rewrite (Z.pow_succ_r 2 (Zpos (digits2_pos p))) by lia.
    lia.
  - rewrite Pos2Z.inj_succ, (Pos2Z.inj_xO p).
    replace (Z.succ (Zpos (digits2_pos p)) - 1) with (Z.succ (Zpos (digits2_pos p) - 1)) by lia.
    rewrite (Z.pow_succ_r 2 (Zpos (digits2_pos p) - 1)) by lia.
    rewrite (Z.pow_succ_r 2 (Zpos (digits2_pos p))) by lia.
    lia.
  - cbn. lia.
Qed.

Lemma iter_pos_nat {A} (f : A -> A) (p : positive) (x : A) :
  SpecFloat.iter_pos f p x = Nat.iter (Pos.to_nat p) f x.
Proof.
  revert x. induction p as [p IH|p IH|]; intros x; cbn [SpecFloat.iter_pos].
  - rewrite !IH, Pos2Nat.inj_xI. 
    replace (S (2 * Pos.to_nat p))%nat with (Pos.to_nat p + (Pos.to_nat p + 1))%nat by lia.
    rewrite !Nat.iter_add. reflexivity.
  - rewrite !IH, Pos2Nat.inj_xO.
    replace (2 * Pos.to_nat p)%nat with (Pos.to_nat p + Pos.to_nat p)%nat by lia.
    rewrite Nat.iter_add. reflexivity.
  - reflexivity.
Qed.

Lemma shr_1_nonneg (m : Z) (r s : bool) :
  0 <= m ->
  shr_1 (Build_shr_record m r s) = Build_shr_record (m / 2) (Z.odd m) (r || s).
Proof.
  intros Hm. rewrite <- Z.div2_div.
  destruct m as [|[p|p|]|p]; try lia; reflexivity.
Qed.

Lemma mod_pow2_succ (M k : Z) :
  0 <= k ->
  M mod 2 ^ (k + 1) = M mod 2 ^ k + 2 ^ k * Z.b2z (Z.testbit M k).
Proof.
  intros Hk. rewrite Z.pow_add_r, Z.pow_1_r by lia.
  rewrite Z.rem_mul_r by lia.
  rewrite Z.testbit_spec' by lia. reflexivity.
Qed.

Lemma shr_iter (M : Z) (k : nat) :
  0 <= M ->
  Nat.iter (S k) shr_1 (Build_shr_record M false false) =
  Build_shr_record (M / 2 ^ Z.of_nat (S k)) (Z.testbit M (Z.of_nat k))
    (negb (M mod 2 ^ Z.of_nat k =? 0)).
Proof.
  intros HM. induction k as [|k IH].
  - cbn [Nat.iter]. rewrite shr_1_nonneg by lia.
    change (Z.of_nat 1) with 1. change (Z.of_nat 0) with 0.
    rewrite Z.pow_1_r, Z.pow_0_r, Z.mod_1_r, Z.bit0_odd. reflexivity.
  - change (Nat.iter (S (S k)) shr_1 ?x) with (shr_1 (Nat.iter (S k) shr_1 x)).
    rewrite IH. rewrite shr_1_nonneg by (apply Z.div_pos; lia).
    f_equal.
    + rewrite Z.div_div by lia. f_equal.
      rewrite (Nat2Z.inj_succ (S k)), Z.pow_succ_r by lia. lia.
    + rewrite Z.testbit_odd, Z.shiftr_div_pow2 by lia. reflexivity.
    + rewrite (Nat2Z.inj_succ k). unfold Z.succ.
      rewrite (mod_pow2_succ M (Z.of_nat k)) by lia.
      assert (0 <= M mod 2 ^ Z.of_nat k) by (apply Z.mod_pos_bound; lia).
      assert (0 < 2 ^ Z.of_nat k) by lia.
      destruct (Z.testbit M (Z.of_nat k)); cbn [Z.b2z orb].
      * symmetry. apply negb_true_iff, Z.eqb_neq. lia.
      * rewrite Z.mul_0_r, Z.add_0_r. reflexivity.
Qed.

Lemma shr_round (M : Z) (p : positive) :
  0 <= M ->
  let mrs := SpecFloat.iter_pos shr_1 p (Build_shr_record M false false) in
  round_nearest_even (shr_m mrs) (loc_of_shr_record mrs) = rne M (Zpos p).
Proof.
  intros HM mrs. subst mrs. rewrite iter_pos_nat.
  destruct (Pos2Nat.is_succ p) as [k Hk]. rewrite Hk, shr_iter by lia.
  assert (Hp : Zpos p = Z.of_nat k + 1) by lia.
  rewrite Hp. replace (Z.of_nat (S k)) with (Z.of_nat k + 1) by lia.
  unfold rne. rewrite (mod_pow2_succ M (Z.of_nat k)) by lia.
  assert (0 <= M mod 2 ^ Z.of_nat k < 2 ^ Z.of_nat k) by (apply Z.mod_pos_bound; lia).
  rewrite (Z.pow_add_r 2 (Z.of_nat k) 1), Z.pow_1_r by lia.
  cbn [shr_m loc_of_shr_record].
  destruct (Z.testbit M (Z.of_nat k)); cbn [Z.b2z].
  - destruct (Z.eqb_spec (M mod 2 ^ Z.of_nat k) 0) as [E|E]; cbn [negb round_nearest_even].
    + rewrite E. replace (2 * (0 + 2 ^ Z.of_nat k * 1) ?= 2 ^ Z.of_nat k * 2) with Eq
        by (symmetry; apply Z.compare_eq_iff; lia). reflexivity.
    + replace (2 * (M mod 2 ^ Z.of_nat k + 2 ^ Z.of_nat k * 1) ?= 2 ^ Z.of_nat k * 2) with Gt
        by (symmetry; apply Z.compare_gt_iff; lia). reflexivity.
  - replace (2 * (M mod 2 ^ Z.of_nat k + 2 ^ Z.of_nat k * 0) ?= 2 ^ Z.of_nat k * 2) with Lt
        by (symmetry; apply Z.compare_lt_iff; lia).
    destruct (negb _); reflexivity.
Qed.

(* ---------- rne properties ---------- *)
Lemma rne_bounds (M n : Z) : M / 2 ^ n <= rne M n <= M / 2 ^ n + 1.
Proof.
  unfold rne. destruct (_ ?= _); [destruct (Z.even _)| |]; lia.
Qed.

Lemma rne_mono (M1 M2 n : Z) : 0 <= n -> M1 <= M2 -> rne M1 n <= rne M2 n.
Proof.
  intros Hn HM.
  assert (HP : 0 < 2 ^ n) by lia.
  pose proof (Z.div_le_mono M1 M2 (2 ^ n) HP HM) as Hq.
  destruct (Z.eq_dec (M1 / 2 ^ n) (M2 / 2 ^ n)) as [E|E].
  - pose proof (Z.div_mod M1 (2 ^ n)) as D1. pose proof (Z.div_mod M2 (2 ^ n)) as D2.
    unfold rne. rewrite <- E in *.
    destruct (Z.compare_spec (2 * (M1 mod 2 ^ n)) (2 ^ n));
      destruct (Z.compare_spec (2 * (M2 mod 2 ^ n)) (2 ^ n));
      destruct (Z.even (M1 / 2 ^ n)); lia.
  - pose proof (rne_bounds M1 n). pose proof (rne_bounds M2 n). lia.
Qed.

Lemma rne_exact (b n : Z) : 0 <= n -> rne (b * 2 ^ n) n = b.
Proof.
  intros Hn. assert (HP : 0 < 2 ^ n) by lia.
  unfold rne. rewrite Z.div_mul, Z.mod_mul by lia.
  replace (2 * 0 ?= 2 ^ n) with Lt by (symmetry; apply Z.compare_lt_iff; lia).
  reflexivity.
Qed.

Lemma rne_scale (M n k : Z) : 0 <= n -> 0 <= k -> rne (M * 2 ^ k) (n + k) = rne M n.
Proof.
  intros Hn Hk. assert (0 < 2 ^ n) by lia. assert (0 < 2 ^ k) by lia.
  unfold rne. rewrite Z.pow_add_r by lia.
  rewrite Z.div_mul_cancel_r by lia.
  rewrite Z.mul_mod_distr_r by lia.
  rewrite Z.mul_assoc.
  rewrite <- (Zmult_compare_compat_r (2 * (M mod 2 ^ n)) (2 ^ n) (2 ^ k)) by lia.
  reflexivity.
Qed.

(* ---------- digits ---------- *)
Lemma Zdigits2_log2 (M : Z) : 0 < M -> Zdigits2 M = Z.log2 M + 1.
Proof.
  destruct M as [|p|p]; try lia. intros _. cbn [Zdigits2].
  pose proof (digits2_pos_bounds p) as [H1 H2].
  symmetry. rewrite (Z.log2_unique (Zpos p) (Zpos (digits2_pos p) - 1)); try lia.
  split; [exact H1|].
  replace (Z.succ (Zpos (digits2_pos p) - 1)) with (Zpos (digits2_pos p)) by lia.
  exact H2.
Qed.

Lemma Zdigits2_nonneg (M : Z) : 0 <= Zdigits2 M.
Proof. destruct M; cbn; lia. Qed.

Lemma Zdigits2_bounds (M : Z) : 0 < M -> 2 ^ (Zdigits2 M - 1) <= M < 2 ^ Zdigits2 M.
Proof.
  destruct M as [|p|p]; try lia. intros _. apply digits2_pos_bounds.
Qed.

Lemma Zdigits2_mono (M1 M2 : Z) : 0 <= M1 <= M2 -> Zdigits2 M1 <= Zdigits2 M2.
Proof.
  intros [H1 H2]. destruct (Z.eq_dec M1 0) as [->|N].
  - apply Zdigits2_nonneg.
  - rewrite !Zdigits2_log2 by lia. pose proof (Z.log2_le_mono M1 M2 H2). lia.
Qed.

Lemma Zdigits2_shift (M k : Z) : 0 < M -> 0 <= k -> Zdigits2 (M * 2 ^ k) = Zdigits2 M + k.
Proof.
  intros HM Hk. rewrite !Zdigits2_log2 by lia.
  rewrite Z.log2_mul_pow2 by lia. lia.
Qed.

Lemma Zdigits2_lt_pow (M d : Z) : 0 <= d -> 0 <= M < 2 ^ d -> Zdigits2 M <= d.
Proof.
  intros Hd [H0 H1]. destruct (Z.eq_dec M 0) as [->|N]; [cbn; lia|].
  destruct (Z.le_gt_cases (Zdigits2 M) d) as [L|G]; [exact L|].
  pose proof (Zdigits2_bounds M ltac:(lia)) as [B _].
  assert (2 ^ d <= 2 ^ (Zdigits2 M - 1)) by (apply Z.pow_le_mono_r; lia). lia.
Qed.

(* ---------- rounding on a common scale ---------- *)
Lemma round_at_mono (c W1 W2 : Z) :
  0 <= c -> 0 <= W1 <= W2 -> round_at c W1 <= round_at c W2.
Proof.
  intros Hc [H0 H12]. unfold round_at.
  pose proof (Zdigits2_mono W1 W2 (conj H0 H12)) as Hd.
  set (n1 := Z.max (Zdigits2 W1 - 53) c). set (n2 := Z.max (Zdigits2 W2 - 53) c).
  assert (Hn : n1 <= n2) by lia.
  destruct (Z.eq_dec n1 n2) as [E|E].
  - rewrite <- E. apply Z.mul_le_mono_nonneg_r; [lia|]. apply rne_mono; lia.
  - assert (Hn2 : n2 = Zdigits2 W2 - 53) by lia.
    assert (Hd12 : Zdigits2 W1 <= Zdigits2 W2 - 1) by lia.
    assert (HW2 : 0 < W2).
    { destruct (Z.eq_dec W2 0) as [->|]; [cbn in Hn2; lia|lia]. }
    pose proof (Zdigits2_bounds W2 HW2) as [B2 _].
    set (B := 2 ^ (Zdigits2 W2 - 1)) in *.
    assert (HW1 : W1 <= B).
    { destruct (Z.eq_dec W1 0) as [->|]; [subst B; lia|].
      pose proof (Zdigits2_bounds W1 ltac:(lia)) as [_ B1].
      assert (2 ^ Zdigits2 W1 <= B) by (apply Z.pow_le_mono_r; lia). lia. }
    apply Z.le_trans with B.
    + assert (EB : B = 2 ^ (Zdigits2 W2 - 1 - n1) * 2 ^ n1).
      { subst B. rewrite <- Z.pow_add_r by lia. f_equal. lia. }
      rewrite EB. apply Z.mul_le_mono_nonneg_r; [lia|].
      rewrite <- (rne_exact (2 ^ (Zdigits2 W2 - 1 - n1)) n1) by lia.
      apply rne_mono; lia.
    + assert (EB : B = 2 ^ 52 * 2 ^ n2).
      { subst B. rewrite <- Z.pow_add_r by lia. f_equal. lia. }
      rewrite EB. apply Z.mul_le_mono_nonneg_r; [lia|].
      rewrite <- (rne_exact (2 ^ 52) n2) at 1 by lia.
      apply rne_mono; lia.
Qed.

Lemma round_at_le (c W b j : Z) :
  0 <= c -> 0 <= W <= b * 2 ^ j -> Z.max (Zdigits2 (b * 2 ^ j) - 53) c <= j ->
  round_at c W <= b * 2 ^ j.
Proof.
  intros Hc [H0 H1] Hj.
  apply Z.le_trans with (round_at c (b * 2 ^ j)).
  - apply round_at_mono; lia.
  - unfold round_at. set (n := Z.max _ c) in *.
    assert (E : b * 2 ^ j = (b * 2 ^ (j - n)) * 2 ^ n).
    { rewrite <- Z.mul_assoc, <- Z.pow_add_r by lia. do 2 f_equal. lia. }
    rewrite E, rne_exact by lia. lia.
Qed.

Lemma round_at_nonneg (c W : Z) : 0 <= c -> 0 <= W -> 0 <= round_at c W.
Proof.
  intros Hc HW. unfold round_at. set (n := Z.max _ c).
  pose proof (rne_bounds W n). assert (0 <= W / 2 ^ n) by (apply Z.div_pos; lia).
  apply Z.mul_nonneg_nonneg; lia.
Qed.

Lemma fexp_64 (e : Z) : fexp 53 1024 e = Z.max (e - 53) (-1074).
Proof. reflexivity. Qed.

Lemma valid_finite (s : bool) (m : positive) (e : Z) :
  valid (S754_finite s m e) = true ->
  Z.max (Zpos (digits2_pos m) + e - 53) (-1074) = e /\ e <= 971.
Proof.
  unfold valid, valid_binary, bounded, canonical_mantissa. rewrite fexp_64.
  intros H. apply andb_true_iff in H as [H1 H2].
  apply Z.eqb_eq in H1. apply Z.leb_le in H2. change (1024 - 53) with 971 in H2. 
  split; [exact H1|exact H2].
Qed.

Lemma Zdigits2_ge_pow (M d : Z) : 0 <= d - 1 -> 2 ^ (d - 1) <= M -> d <= Zdigits2 M.
Proof.
  intros Hd H. assert (0 < M) by lia.
  destruct (Z.le_gt_cases d (Zdigits2 M)) as [L|G]; [exact L|].
  pose proof (Zdigits2_bounds M ltac:(lia)) as [_ B]. pose proof (Zdigits2_nonneg M).
  assert (2 ^ Zdigits2 M <= 2 ^ (d - 1)) by (apply Z.pow_le_mono_r; lia). lia.
Qed.

Lemma shr_fexp_exact (M E : Z) :
  shr_fexp 53 1024 M E loc_Exact =
  shr (Build_shr_record M false false) E (Z.max (Zdigits2 M + E - 53) (-1074) - E).
Proof. reflexivity. Qed.

Lemma shr_pos (mrs : shr_record) (E : Z) (p : positive) :
  shr mrs E (Zpos p) = (SpecFloat.iter_pos shr_1 p mrs, E + Zpos p).
Proof. reflexivity. Qed.

Lemma shr_nonpos (mrs : shr_record) (E n : Z) : n <= 0 -> shr mrs E n = (mrs, E).
Proof. destruct n; [reflexivity|lia|reflexivity]. Qed.

Lemma binary_round_aux_exact (Mp : positive) (E : Z) :
  let M := Zpos Mp in
  let e1 := Z.max (Zdigits2 M + E - 53) (-1074) in
  0 < e1 - E -> e1 + 1 <= 971 ->
  binary_round_aux 53 1024 false M E loc_Exact = S754_zero false /\ rne M (e1 - E) = 0 \/
  exists m' e', binary_round_aux 53 1024 false M E loc_Exact = S754_finite false m' e' /\
    e1 <= e' /\ Zpos m' * 2 ^ (e' - e1) = rne M (e1 - E).
Proof.
  intros M e1 Hn Hov.
  unfold binary_round_aux. rewrite shr_fexp_exact. fold e1.
  destruct (e1 - E) as [|p|p] eqn:En; try lia.
  rewrite shr_pos. cbv beta iota.
  rewrite shr_round by (subst M; lia). rewrite shr_fexp_exact.
  replace (E + Zpos p) with e1 by lia.
  set (q := rne M (Zpos p)).
  assert (Hq : 0 <= q <= 2 ^ 53).
  { pose proof (rne_bounds M (Zpos p)) as Hb. fold q in Hb.
    assert (0 <= M / 2 ^ Zpos p) by (apply Z.div_pos; subst M; lia).
    assert (M / 2 ^ Zpos p < 2 ^ 53); [|lia].
    apply Z.div_lt_upper_bound; [lia|].
    pose proof (Zdigits2_bounds M ltac:(subst M; lia)) as [_ B].
    rewrite <- Z.pow_add_r by lia.
    assert (2 ^ Zdigits2 M <= 2 ^ (Zpos p + 53)); [|lia].
    apply Z.pow_le_mono_r; lia. }
  destruct (Z.eq_dec q (2 ^ 53)) as [E53|N53].
  - right. rewrite E53. change (Zdigits2 (2 ^ 53)) with 54.
    replace (Z.max (54 + e1 - 53) (-1074) - e1) with 1 by lia.
    rewrite shr_pos. cbv beta iota.
    change (shr_m (SpecFloat.iter_pos shr_1 1 (Build_shr_record (2 ^ 53) false false)))
      with (Zpos 4503599627370496).
    cbv beta iota.
    replace (e1 + 1 <=? 1024 - 53) with true by (symmetry; apply Z.leb_le; lia).
    eexists _, _. split; [reflexivity|]. split; [lia|].
    replace (e1 + 1 - e1) with 1 by lia. reflexivity.
  - assert (Hd : Zdigits2 q <= 53) by (apply Zdigits2_lt_pow; lia).
    rewrite shr_nonpos by lia. cbv beta iota. cbn [shr_m].
    destruct q as [|qp|qp] eqn:Eq; [left; auto|right|lia].
    replace (e1 <=? 1024 - 53) with true by (symmetry; apply Z.leb_le; lia).
    exists qp, e1. rewrite Z.sub_diag, Z.pow_0_r. repeat split; lia.
Qed.

Lemma valid_finite_bounds (s : bool) (m : positive) (e : Z) :
  valid (S754_finite s m e) = true ->
  -1074 <= e <= 971 /\ Zpos m < 2 ^ 53 /\ (-1074 < e -> 2 ^ 52 <= Zpos m).
Proof.
  intros H. apply valid_finite in H as [H1 H2].
  pose proof (digits2_pos_bounds m) as [B1 B2].
  assert (Hd : Zpos (digits2_pos m) <= 53) by lia.
  repeat split; try lia.
  - assert (2 ^ Zpos (digits2_pos m) <= 2 ^ 53) by (apply Z.pow_le_mono_r; lia). lia.
  - intros He. assert (Zpos (digits2_pos m) = 53) as E53 by lia.
    rewrite E53 in B1. exact B1.
Qed.

Lemma ulps_compare (m1 m2 : positive) (e1 e2 : Z) :
  valid (S754_finite false m1 e1) = true -> valid (S754_finite false m2 e2) = true ->
  SFcompare (S754_finite false m1 e1) (S754_finite false m2 e2) =
  Some (ulps (S754_finite false m1 e1) ?= ulps (S754_finite false m2 e2)).
Proof.
  intros V1 V2.
  apply valid_finite_bounds in V1 as (He1 & Hm1 & Hn1).
  apply valid_finite_bounds in V2 as (He2 & Hm2 & Hn2).
  cbn [SFcompare ulps]. f_equal.
  destruct (Z.compare_spec e1 e2) as [E|L|G].
  - subst e2. change (Pos.compare_cont Eq m1 m2) with (Pos.compare m1 m2).
    rewrite Pos2Z.inj_compare.
    apply Zmult_compare_compat_r. lia.
  - symmetry. apply Z.compare_lt_iff.
    assert (2 ^ (e1 + 1074) * 2 <= 2 ^ (e2 + 1074)).
    { rewrite <- (Z.pow_1_r 2) at 2. rewrite <- Z.pow_add_r by lia.
      apply Z.pow_le_mono_r; lia. }
    specialize (Hn2 ltac:(lia)).
    assert (0 < 2 ^ (e1 + 1074)) by lia.
    change (2 ^ 53) with (2 ^ 52 * 2) in Hm1.
    generalize dependent (2 ^ 52). intros c Hm1 Hn2.
    generalize dependent (2 ^ (e1 + 1074)). generalize dependent (2 ^ (e2 + 1074)). intros. nia.
  - symmetry. apply Z.compare_gt_iff.
    assert (2 ^ (e2 + 1074) * 2 <= 2 ^ (e1 + 1074)).
    { rewrite <- (Z.pow_1_r 2) at 2. rewrite <- Z.pow_add_r by lia.
      apply Z.pow_le_mono_r; lia. }
    specialize (Hn1 ltac:(lia)).
    assert (0 < 2 ^ (e2 + 1074)) by lia.
    change (2 ^ 53) with (2 ^ 52 * 2) in Hm2.
    generalize dependent (2 ^ 52). intros c Hn1 Hm2.
    generalize dependent (2 ^ (e1 + 1074)). generalize dependent (2 ^ (e2 + 1074)). intros. nia.
Qed.

Lemma floorZ_ulps (m : positive) (e : Z) :
  -1074 <= e -> floorZ false m e = ulps (S754_finite false m e) / 2 ^ 1074.
Proof.
  intros He. unfold floorZ, ulps. cbn [cond_Zopp].
  destruct (Z.leb_spec 0 e) as [L|G].
  - rewrite Z.pow_add_r by lia. rewrite Z.mul_assoc, Z.div_mul by lia. reflexivity.
  - replace (2 ^ 1074) with (2 ^ (- e) * 2 ^ (e + 1074)).
    2:{ rewrite <- Z.pow_add_r by lia. f_equal. lia. }
    rewrite Z.div_mul_cancel_r by lia. reflexivity.
Qed.

Lemma mul_js10 (m : positive) (e : Z) :
  valid (S754_finite false m e) = true -> e <= -52 ->
  exists y, mul (S754_finite false m e) js10 = y /\
    (y = S754_zero false \/ exists m' e', y = S754_finite false m' e' /\ -1074 <= e') /\
    ulps y * 2 ^ 49 = round_at 49 (ulps (S754_finite false m e) * 5629499534213120).
Proof.
  intros V He. apply valid_finite_bounds in V as (He1 & Hm1 & Hn1).
  unfold mul, js10. cbn [SFmul xorb].
  set (M := Zpos (m * 5629499534213120)).
  assert (HM : M = Zpos m * 5629499534213120) by (subst M; lia).
  set (e1 := Z.max (Zdigits2 M + (e + -49) - 53) (-1074)).
  assert (HdU : Zdigits2 M <= 106).
  { apply Zdigits2_lt_pow; [lia|]. split; [lia|].
    change (2 ^ 106) with (2 ^ 53 * 2 ^ 53). rewrite HM.
    apply Z.mul_lt_mono_nonneg; lia. }
  assert (Hn : 0 < e1 - (e + -49)).
  { destruct (Z.eq_dec e (-1074)) as [->|N]; [lia|].
    assert (105 <= Zdigits2 M); [|lia].
    apply Zdigits2_ge_pow; [lia|]. rewrite HM.
    change (2 ^ (105 - 1)) with (2 ^ 52 * 2 ^ 52).
    specialize (Hn1 ltac:(lia)). apply Z.mul_le_mono_nonneg; lia. }
  assert (Hov : e1 + 1 <= 971) by lia.
  assert (HW : round_at 49 (ulps (S754_finite false m e) * 5629499534213120) =
               rne M (e1 - (e + -49)) * 2 ^ (e1 + 1123)).
  { unfold round_at, ulps.
    replace (Zpos m * 2 ^ (e + 1074) * 5629499534213120) with (M * 2 ^ (e + 1074)) by lia.
    rewrite Zdigits2_shift by lia.
    replace (Z.max (Zdigits2 M + (e + 1074) - 53) 49) with (e1 - (e + -49) + (e + 1074)) by lia.
    rewrite rne_scale by lia. do 2 f_equal. lia. }
  rewrite HW.
  pose proof (binary_round_aux_exact (m * 5629499534213120) (e + -49) Hn Hov) as HR.
  cbv zeta in HR. fold M in HR. fold e1 in HR.
  destruct HR as [[HR Hz]|(m' & e' & HR & Le & Hv)]; rewrite HR.
  - eexists. split; [reflexivity|]. split; [left; reflexivity|].
    rewrite Hz. reflexivity.
  - eexists. split; [reflexivity|]. split; [right; exists m', e'; split; [reflexivity|lia]|].
    rewrite <- Hv. cbn [ulps].
    rewrite <- !Z.mul_assoc. f_equal. rewrite <- !Z.pow_add_r by lia. f_equal. lia.
Qed.

Lemma clamped_of_floor (j : Z) (b : bool) :
  0 <= j <= 10 ->
  Math_max js0 (Math_min js9 (binary_normalize 53 1024 j 0 false)) = of_Z (Z.min 9 j) /\
  array_index (of_Z (Z.min 9 j)) = Some (Z.to_nat (Z.min 9 j)).
Proof.
  intros Hj.
  assert (H : j = 0 \/ j = 1 \/ j = 2 \/ j = 3 \/ j = 4 \/ j = 5 \/ j = 6 \/ j = 7 \/
              j = 8 \/ j = 9 \/ j = 10) by lia.
  repeat (destruct H as [->|H]); try subst j; split; vm_compute; reflexivity.
Qed.

Lemma bucket_of_ulps_range (u : Z) : 0 <= u <= 2 ^ 1074 ->
  0 <= round_at 49 (u * 5629499534213120) / 2 ^ 49 / 2 ^ 1074 <= 10.
Proof.
  intros [H0 H1].
  assert (HW : 0 <= u * 5629499534213120 <= 5 * 2 ^ 1124).
  { change (5 * 2 ^ 1124) with (2 ^ 1074 * 5629499534213120). 
    generalize dependent (2 ^ 1074). intros. lia. }
  pose proof (round_at_nonneg 49 _ ltac:(lia) (proj1 HW)) as R0.
  assert (R1 : round_at 49 (u * 5629499534213120) <= 5 * 2 ^ 1124).
  { apply round_at_le; [lia|exact HW|].
    rewrite Zdigits2_shift by lia. change (Zdigits2 5) with 3. lia. }
  generalize dependent (round_at 49 (u * 5629499534213120)). intros r R0 R1.
  split.
  - apply Z.div_pos; [apply Z.div_pos|]; lia.
  - rewrite Z.div_div by lia. rewrite <- Z.pow_add_r by lia.
    change (49 + 1074) with 1123.
    assert (r / 2 ^ 1123 <= (10 * 2 ^ 1123) / 2 ^ 1123).
    { apply Z.div_le_mono; [lia|]. change (5 * 2 ^ 1124) with (10 * 2 ^ 1123) in R1. exact R1. }
    rewrite Z.div_mul in H by lia. exact H.
Qed.

Lemma SFcompare_js1 (m : positive) (e : Z) :
  SFcompare js1 (S754_finite false m e) =
  Some (match -52 ?= e with
        | Lt => Lt | Gt => Gt
        | Eq => (4503599627370496 ?= Zpos m)
        end).
Proof. reflexivity. Qed.

Lemma SFcompare_to_js1 (m : positive) (e : Z) :
  SFcompare (S754_finite false m e) js1 =
  Some (match e ?= -52 with
        | Lt => Lt | Gt => Gt
        | Eq => (Zpos m ?= 4503599627370496)
        end).
Proof.
  unfold js1. cbn [SFcompare]. destruct (e ?= -52); [|reflexivity|reflexivity].
  rewrite <- Pos2Z.inj_compare. unfold Pos.compare. reflexivity.
Qed.

Lemma normalized_finite_pos (m : positive) (e : Z) :
  let s := S754_finite false m e in
  valid s = true ->
  normalized s = js1 /\ clamp js0 js1 s = js1 /\ SFleb s js1 = false \/
  normalized s = s /\ clamp js0 js1 s = s /\ e <= -52 /\ ulps s <= 2 ^ 1074.
Proof.
  intros s V. pose proof (valid_finite_bounds _ _ _ V) as (He & Hm & Hn).
  unfold normalized, clamp, Math_min, js_lt, SFltb, SFleb. subst s.
  rewrite SFcompare_js1, SFcompare_to_js1.
  change (SFcompare (S754_finite false m e) js0) with (Some Gt).
  rewrite (Z.compare_antisym (-52) e).
  destruct (Z.compare_spec (-52) e) as [E|L|G]; cbn [CompOpp].
  - subst e. specialize (Hn ltac:(lia)). change (2 ^ 52) with (Zpos 4503599627370496) in Hn.
    rewrite (Z.compare_antisym 4503599627370496 (Zpos m)).
    destruct (Z.compare_spec 4503599627370496 (Zpos m)) as [E|L|G]; cbn [CompOpp].
    + injection E as <-. right. split; [reflexivity|]. split; [reflexivity|]. split; [lia|].
      vm_compute; discriminate.
    + left. repeat split; reflexivity.
    + exfalso. lia.
  - left. repeat split; reflexivity.
  - right. split; [reflexivity|]. split; [reflexivity|]. split; [lia|].
    cbn [ulps].
    assert (2 ^ (e + 1074) * 2 ^ 53 <= 2 ^ 1074).
    { rewrite <- Z.pow_add_r by lia. apply Z.pow_le_mono_r; lia. }
    assert (0 < 2 ^ (e + 1074)) by lia.
    generalize dependent (2 ^ 1074). generalize dependent (2 ^ (e + 1074)).
    generalize dependent (2 ^ 53). intros. nia.
Qed.

Lemma classify_unit (m : positive) (e : Z) :
  let s := S754_finite false m e in
  valid s = true -> normalized s = s -> clamp js0 js1 s = s ->
  e <= -52 -> ulps s <= 2 ^ 1074 ->
  let j := bucket_of_ulps (ulps s) in
  0 <= j <= 9 /\ bucket_index s = Some j /\ clampedIndex s = of_Z j /\
  array_index (of_Z j) = Some (Z.to_nat j).
Proof.
  intros s V Hnorm Hclamp He Hu j.
  assert (Hu0 : 0 <= ulps s) by (subst s; cbn [ulps]; lia).
  pose proof (bucket_of_ulps_range (ulps s) (conj Hu0 Hu)) as Hr.
  destruct (mul_js10 m e V He) as (y & Hy & Hshape & Huy). fold s in Hy, Huy.
  unfold bucket_index, clampedIndex, index. rewrite Hnorm, Hclamp, Hy.
  subst j. unfold bucket_of_ulps.
  set (f := round_at 49 (ulps s * 5629499534213120) / 2 ^ 49 / 2 ^ 1074) in *.
  assert (Hf : ulps y / 2 ^ 1074 = f).
  { subst f. rewrite <- Huy. rewrite Z.div_mul by lia. reflexivity. }
  destruct (clamped_of_floor f false Hr) as [C1 C2].
  split; [lia|].
  destruct Hshape as [->|(m' & e' & -> & He')].
  - assert (f = 0) as -> by (rewrite <- Hf; reflexivity).
    repeat split; reflexivity.
  - rewrite <- (floorZ_ulps m' e' He') in Hf.
    cbn [floor_int Math_floor fmap option_fmap option_map]. rewrite Hf.
    split; [f_equal; lia|]. split; [exact C1|exact C2].
Qed.

Lemma colors_lookup (j : Z) : 0 <= j <= 9 -> is_Some (colors !! Z.to_nat j).
Proof.
  intros Hj. apply lookup_lt_is_Some. change (length colors) with 10%nat. lia.
Qed.

Lemma bucket_of_ulps_mono (u1 u2 : Z) :
  0 <= u1 <= u2 -> bucket_of_ulps u1 <= bucket_of_ulps u2.
Proof.
  intros [H0 H12]. unfold bucket_of_ulps.
  apply Z.min_le_compat_l.
  apply Z.div_le_mono; [lia|]. apply Z.div_le_mono; [lia|].
  apply round_at_mono; lia.
Qed.

(** A score between 0 and 1 falls in the bucket [bucket_of_ulps] gives
    its magnitude. *)
Lemma unit_bucket (s : number) :
  valid s = true -> SFleb js0 s = true -> SFleb s js1 = true ->
  let j := bucket_of_ulps (ulps s) in
  0 <= j <= 9 /\ bucket_index s = Some j /\ clampedIndex s = of_Z j /\
  array_index (of_Z j) = Some (Z.to_nat j).
Proof.
  intros V H0 H1 j. destruct s as [b|b| |b m e]; try discriminate.
  - subst j. destruct b; vm_compute; repeat split; congruence.
  - destruct b; try discriminate.
  - destruct b; try discriminate.
    destruct (normalized_finite_pos m e V) as [(_ & _ & F)|(N & C & He & Hu)].
    + rewrite F in H1. discriminate.
    + exact (classify_unit m e V N C He Hu).
Qed.

(** Every score that is a number falls in a bucket between 0 and 9. *)
Lemma any_bucket (s : number) :
  valid s = true -> is_nan s = false ->
  exists j, 0 <= j <= 9 /\ bucket_index s = Some j /\ clampedIndex s = of_Z j /\
    array_index (of_Z j) = Some (Z.to_nat j).
Proof.
  intros V Hn. destruct s as [b|b| |b m e]; try discriminate.
  - exists 0. destruct b; vm_compute; repeat split; congruence.
  - destruct b; [exists 0|exists 9]; vm_compute; repeat split; congruence.
  - destruct b.
    + exists 0. 
      assert (N : normalized (S754_finite true m e) = js0) by reflexivity.
      assert (C : clamp js0 js1 (S754_finite true m e) = js0) by reflexivity.
      unfold bucket_index, clampedIndex, index. rewrite N, C.
      vm_compute; repeat split; congruence.
    + destruct (normalized_finite_pos m e V) as [(N & C & _)|(N & C & He & Hu)].
      * exists 9. unfold bucket_index, clampedIndex, index. rewrite N, C.
        vm_compute; repeat split; congruence.
      * eexists. exact (classify_unit m e V N C He Hu).
Qed.

Lemma ulps_le (s1 s2 : number) :
  valid s1 = true -> valid s2 = true ->
  SFleb js0 s1 = true -> SFleb s1 s2 = true -> SFleb s2 js1 = true ->
  0 <= ulps s1 <= ulps s2.
Proof.
  intros V1 V2 H0 H12 H1.
  destruct s1 as [b1|b1| |b1 m1 e1]; try discriminate;
    destruct s2 as [b2|b2| |b2 m2 e2]; try discriminate;
    try (destruct b1; discriminate); try (destruct b2; discriminate);
    try (destruct b1, b2; discriminate).
  - cbn [ulps]. lia.
  - cbn [ulps]. assert (0 < 2 ^ (e2 + 1074)); [|lia].
    apply valid_finite_bounds in V2. apply Z.pow_pos_nonneg; lia.
  - destruct b1, b2; try discriminate.
    unfold SFleb in H12. rewrite (ulps_compare m1 m2 e1 e2 V1 V2) in H12.
    apply valid_finite_bounds in V1. 
    assert (0 < 2 ^ (e1 + 1074)) by (apply Z.pow_pos_nonneg; lia).
    split; [cbn [ulps]; lia|].
    destruct (Z.compare_spec (ulps (S754_finite false m1 e1))
                (ulps (S754_finite false m2 e2))); [lia|lia|discriminate].
Qed.

End NumberFacts.

(** ** Score Classifier *)

Section ClassifierFacts.
Local Open Scope Z_scope.

Lemma getColorByScore_index (s : number) (j : Z) :
  0 <= j <= 9 -> clampedIndex s = of_Z j ->
  array_index (of_Z j) = Some (Z.to_nat j) ->
  getColorByScore s = colors !! Z.to_nat j.
Proof.
  intros _ Hc Ha. unfold getColorByScore, array_get. rewrite Hc, Ha. reflexivity.
Qed.

(** For every score that is a number, the classifier returns the colour
    of the bucket the specification's formula names, and that bucket lies
    between 0 and 9. *)
Lemma getColorByScore_bucket (s : number) :
  valid s = true -> is_nan s = false ->
  exists (j : Z) (c : string),
    bucket_index s = Some j /\ 0 <= j <= 9 /\ clampedIndex s = of_Z j /\
    colors !! Z.to_nat j = Some c /\ getColorByScore s = Some c.
Proof.
  intros V Hn. destruct (any_bucket s V Hn) as (j & Hj & Hb & Hc & Ha).
  destruct (colors_lookup j Hj) as [c Hcol].
  exists j, c. repeat split; try assumption; try lia.
  rewrite (getColorByScore_index s j Hj Hc Ha). exact Hcol.
Qed.

Lemma unit_interval_bounds (s1 s2 : number) :
  valid s1 = true -> valid s2 = true ->
  SFleb js0 s1 = true -> SFleb s1 s2 = true -> SFleb s2 js1 = true ->
  SFleb js0 s2 = true /\ SFleb s1 js1 = true.
Proof.
  intros V1 V2 H0 H12 H1.
  assert (Vj : valid js1 = true) by reflexivity.
  destruct s1 as [b1|b1| |b1 m1 e1]; try discriminate;
    destruct s2 as [b2|b2| |b2 m2 e2]; try discriminate;
    try (destruct b1; discriminate); try (destruct b2; discriminate);
    try (destruct b1, b2; discriminate).
  - split; reflexivity.
  - destruct b2; [discriminate|]. split; reflexivity.
  - destruct b1, b2; try discriminate. split; [reflexivity|].
    unfold SFleb, js1 in *.
    rewrite ulps_compare in H12, H1 |- * by assumption.
    destruct (Z.compare_spec (ulps (S754_finite false m1 e1))
                (ulps (S754_finite false m2 e2))); try discriminate;
    destruct (Z.compare_spec (ulps (S754_finite false m2 e2))
                (ulps (S754_finite false 4503599627370496 (-52)))); try discriminate;
    destruct (Z.compare_spec (ulps (S754_finite false m1 e1))
                (ulps (S754_finite false 4503599627370496 (-52)))); try reflexivity;
    exfalso; lia.
Qed.

(** C7: on scores between 0 and 1 the classifier returns one of the ten
    fixed colours, and a higher score never gets a lower bucket index. *)
Theorem classifier_monotone (s1 s2 : number) :
  valid s1 = true -> valid s2 = true ->
  SFleb js0 s1 = true -> SFleb s1 s2 = true -> SFleb s2 js1 = true ->
  exists (i1 i2 : nat) (c1 c2 : string),
    clampedIndex s1 = of_Z (Z.of_nat i1) /\ clampedIndex s2 = of_Z (Z.of_nat i2) /\
    getColorByScore s1 = Some c1 /\ colors !! i1 = Some c1 /\
    getColorByScore s2 = Some c2 /\ colors !! i2 = Some c2 /\
    (i1 <= i2 < length colors)%nat /\ length colors = 10%nat /\ NoDup colors.
Proof.
  intros V1 V2 H0 H12 H1.
  destruct (unit_interval_bounds s1 s2 V1 V2 H0 H12 H1) as [H02 H11].
  destruct (unit_bucket s1 V1 H0 H11) as (Hj1 & _ & Hc1 & Ha1).
  destruct (unit_bucket s2 V2 H02 H1) as (Hj2 & _ & Hc2 & Ha2).
  pose proof (bucket_of_ulps_mono _ _ (ulps_le s1 s2 V1 V2 H0 H12 H1)) as Hm.
  set (j1 := bucket_of_ulps (ulps s1)) in *. set (j2 := bucket_of_ulps (ulps s2)) in *.
  destruct (colors_lookup j1 Hj1) as [c1 Hcol1].
  destruct (colors_lookup j2 Hj2) as [c2 Hcol2].
  exists (Z.to_nat j1), (Z.to_nat j2), c1, c2.
  rewrite !Z2Nat.id by lia.
  split; [exact Hc1|]. split; [exact Hc2|].
  split; [rewrite (getColorByScore_index s1 j1 Hj1 Hc1 Ha1); exact Hcol1|].
  split; [exact Hcol1|].
  split; [rewrite (getColorByScore_index s2 j2 Hj2 Hc2 Ha2); exact Hcol2|].
  split; [exact Hcol2|].
  split; [change (length colors) with 10%nat; lia|].
  split; [reflexivity|].
  apply (bool_decide_unpack _). vm_compute. exact I.
Qed.

(** Witness of [classifier_monotone]: the scores 0.05 and 0.94. *)
Lemma classifier_monotone_witness :
  exists (i1 i2 : nat) (c1 c2 : string),
    clampedIndex (lit 5 2) = of_Z (Z.of_nat i1) /\
    clampedIndex (lit 94 2) = of_Z (Z.of_nat i2) /\
    getColorByScore (lit 5 2) = Some c1 /\ colors !! i1 = Some c1 /\
    getColorByScore (lit 94 2) = Some c2 /\ colors !! i2 = Some c2 /\
    (i1 <= i2 < length colors)%nat /\ length colors = 10%nat /\ NoDup colors.
Proof.
  apply (classifier_monotone (lit 5 2) (lit 94 2)); vm_compute; reflexivity.
Defined.

(** C2: a score that is not a number gets NaN as its bucket index, so the
    classifier returns [undefined] there and not the colour of a bucket
    between 0 and 9. *)
Theorem getColorByScore_NaN_no_bucket :
  clampedIndex NaN = NaN /\ getColorByScore NaN = None /\
  forall j : nat, (j <= 9)%nat -> getColorByScore NaN <> colors !! j.
Proof.
  split; [reflexivity|]. split; [reflexivity|].
  intros j Hj. change (getColorByScore NaN) with (@None string).
  intros E. symmetry in E. apply lookup_ge_None in E.
  change (length colors) with 10%nat in E. lia.
Qed.

(** C8: at NaN the computed index is no position of the colour array and
    no colour is returned. *)
Theorem getColorByScore_NaN_undefined :
  valid NaN = true /\ array_index (clampedIndex NaN) = None /\
  getColorByScore NaN = None.
Proof. repeat split; reflexivity. Qed.

(** The clamping and the sample scores of the specification. *)
Lemma classifier_examples :
  getColorByScore (SFopp (lit 5 1)) = getColorByScore (lit 0 1) /\
  getColorByScore (lit 15 1) = getColorByScore (lit 10 1) /\
  map clampedIndex [lit 0 1; lit 5 2; lit 94 2; lit 10 1] =
  map of_Z [0; 0; 9; 9].
Proof. repeat split; vm_compute; reflexivity. Qed.

End ClassifierFacts.

(** ** The filter of the remote query *)

Section FilterFacts.
Local Open Scope string_scope.

Lemma string_app_cons (x : Ascii.ascii) (a b : string) :
  String x a +:+ b = String x (a +:+ b).
Proof. reflexivity. Qed.

Lemma string_app_assoc (a b c : string) : (a +:+ b) +:+ c = a +:+ (b +:+ c).
Proof.
  induction a as [|x a IH]; [reflexivity|].
  rewrite !string_app_cons, IH. reflexivity.
Qed.

Lemma string_app_nil_r (a : string) : a +:+ EmptyString = a.
Proof.
  induction a as [|x a IH]; [reflexivity|].
  rewrite string_app_cons, IH. reflexivity.
Qed.

Lemma string_length_app (a b : string) :
  String.length (a +:+ b) = (String.length a + String.length b)%nat.
Proof.
  induction a as [|x a IH]; [reflexivity|].
  rewrite string_app_cons. cbn [String.length]. rewrite IH. reflexivity.
Qed.

Lemma join_from_concat (sep : string) (a : list string) (k : nat) (R : string) :
  join_from sep k a R =
  match a with
  | [] => R
  | _ => (match k with O => R | S _ => R +:+ sep end) +:+ String.concat sep a
  end.
Proof.
  revert k R. induction a as [|x a IH]; intros k R; [reflexivity|].
  cbn [join_from]. rewrite IH. destruct a as [|y a].
  - cbn [String.concat]. reflexivity.
  - cbn [String.concat]. rewrite !string_app_assoc. reflexivity.
Qed.

Lemma Array_join_concat (sep : string) (a : list string) :
  Array_join sep a = String.concat sep a.
Proof.
  unfold Array_join. rewrite join_from_concat. destruct a; reflexivity.
Qed.

Lemma in_list_cons (c : string) (rest : list string) :
  in_list (c :: rest) = "'" +:+ c +:+ "'" +:+ comma_if rest +:+ in_list rest.
Proof.
  unfold in_list. destruct rest as [|d rest]; cbn [map String.concat comma_if].
  - reflexivity.
  - rewrite ?string_app_assoc. reflexivity.
Qed.

Lemma in_list_app (before : list string) (code : string) (after : list string) :
  in_list (before ++ code :: after)%list =
  in_list before +:+ comma_if before +:+ "'" +:+ code +:+ "'" +:+
  comma_if after +:+ in_list after.
Proof.
  induction before as [|b before IH].
  - cbn [app]. rewrite in_list_cons. reflexivity.
  - cbn [app]. rewrite !in_list_cons, IH.
    replace (comma_if (before ++ code :: after)%list) with ",".
    2:{ destruct before; reflexivity. }
    destruct before as [|b' before]; cbn [comma_if].
    + change (in_list []) with EmptyString. rewrite ?string_app_assoc. reflexivity.
    + rewrite ?string_app_assoc. reflexivity.
Qed.

Lemma in_list_length_spec (codes : list string) :
  String.length (in_list codes) = in_list_length codes.
Proof.
  induction codes as [|c rest IH]; [reflexivity|].
  rewrite in_list_cons, !string_length_app, IH.
  destruct rest as [|d rest]; cbn [in_list_length comma_if String.length]; lia.
Qed.

(** C3: the filter is [sa1_code_2021 IN (...)] around the codes, each
    between single quotes and separated by commas; every code is copied
    as it is between its two quotes, so the filter is exactly as long as
    the codes, their quotes and the commas (nothing is escaped), also for
    a code with a quote in it. *)
Theorem whereClause_quotes_and_joins (codes : list string) :
  whereClause codes = "sa1_code_2021 IN (" +:+ in_list codes +:+ ")" /\
  String.length (whereClause codes) = (19 + in_list_length codes)%nat /\
  (forall (before : list string) (code : string) (after : list string),
     codes = (before ++ code :: after)%list ->
     whereClause codes =
       "sa1_code_2021 IN (" +:+ in_list before +:+ comma_if before +:+
       "'" +:+ code +:+ "'" +:+ comma_if after +:+ in_list after +:+ ")") /\
  whereClause ["1"; "2'3"] = "sa1_code_2021 IN ('1','2'3')".
Proof.
  assert (E : whereClause codes = "sa1_code_2021 IN (" +:+ in_list codes +:+ ")").
  { unfold whereClause, sa1s, quoted, in_list. rewrite Array_join_concat. reflexivity. }
  split; [exact E|]. split; [|split; [|reflexivity]].
  - rewrite E, !string_length_app, in_list_length_spec. cbn [String.length]. lia.
  - intros before code after ->. rewrite E, in_list_app, !string_app_assoc. reflexivity.
Qed.

End FilterFacts.

(** ** Data Binder *)

(** Unfolding of the field updates. *)
Ltac world_simpl :=
  cbn [this page on_this on_page
       inited saones cands scoreMap selectionIdMap autoRefreshTimer fglayer
       layerControl legend saonesLayer
       console frames intervals lastHandle visibilityListener groups mapLayers
       featureLayers legendCount mapLegends resizes mapRemoved selections
       set_inited set_saones set_cands set_tables set_autoRefreshTimer set_fglayer
       set_layerControl set_legend set_saonesLayer
       set_console set_frames set_timers set_visibilityListener set_groups
       set_mapLayers set_featureLayers set_legends set_resizes set_mapRemoved
       set_selections
       console_log requestAnimationFrame refresh fst snd] in *.

Section DataBinderFacts.
Context `{JsRuntime}.

Lemma storeRows_fst column scores codes i sm im im' :
  fst (storeRows column scores codes i sm im) =
  fst (storeRows column scores codes i sm im').
Proof.
  revert i sm im im'. induction codes as [|c codes IH]; intros; [reflexivity|].
  cbn [storeRows]. apply IH.
Qed.

Lemma storeRows_dom column scores codes i
    (sm : gmap string (option PrimitiveValue)) (im : gmap string SelectionId) :
  dom (fst (storeRows column scores codes i sm im)) = dom sm ∪ list_to_set codes /\
  dom (snd (storeRows column scores codes i sm im)) = dom im ∪ list_to_set codes.
Proof.
  revert i sm im. induction codes as [|c codes IH]; intros i sm im.
  - cbn. split; set_solver.
  - cbn [storeRows]. destruct (IH (S i) (<[c := scores !! i]> sm)
      (<[c := {| sel_column := column; sel_row := i |}]> im)) as [-> ->].
    rewrite !dom_insert_L. cbn [list_to_set]. split; set_solver.
Qed.

Lemma storeRows_notin column scores codes i
    (sm : gmap string (option PrimitiveValue)) (im : gmap string SelectionId) k :
  k ∉ codes ->
  fst (storeRows column scores codes i sm im) !! k = sm !! k /\
  snd (storeRows column scores codes i sm im) !! k = im !! k.
Proof.
  revert i sm im. induction codes as [|c codes IH]; intros i sm im Hk; [split; reflexivity|].
  cbn [storeRows]. apply not_elem_of_cons in Hk as [Hne Hk].
  destruct (IH (S i) (<[c := scores !! i]> sm)
      (<[c := {| sel_column := column; sel_row := i |}]> im) Hk) as [-> ->].
  rewrite !lookup_insert_ne by congruence. split; reflexivity.
Qed.

(** The last row with a given code decides its entries. *)
Lemma storeRows_last column scores codes i
    (sm : gmap string (option PrimitiveValue)) (im : gmap string SelectionId) n k :
  codes !! n = Some k ->
  (forall n', n < n' -> codes !! n' <> Some k) ->
  fst (storeRows column scores codes i sm im) !! k = Some (scores !! (i + n)) /\
  snd (storeRows column scores codes i sm im) !! k =
    Some {| sel_column := column; sel_row := i + n |}.
Proof.
  revert i sm im n. induction codes as [|c codes IH]; intros i sm im n Hn Hlast;
    [discriminate|].
  cbn [storeRows]. destruct n as [|n].
  - injection Hn as ->.
    assert (Hk : k ∉ codes).
    { intros Hin. apply list_elem_of_lookup in Hin as [n' Hn'].
      apply (Hlast (S n')); [lia|exact Hn']. }
    destruct (storeRows_notin column scores codes (S i) (<[k := scores !! i]> sm)
      (<[k := {| sel_column := column; sel_row := i |}]> im) k Hk) as [-> ->].
    rewrite !lookup_insert_eq, Nat.add_0_r. split; reflexivity.
  - replace (i + S n) with (S i + n) by lia. apply IH; [exact Hn|].
    intros n' Hlt. apply (Hlast (S n')). lia.
Qed.

Lemma same_data_refl w : same_data w w.
Proof. repeat split. Qed.

Lemma same_data_trans w1 w2 w3 : same_data w1 w2 -> same_data w2 w3 -> same_data w1 w3.
Proof.
  unfold same_data. intros (?&?&?&?&?&?&?) (?&?&?&?&?&?&?).
  repeat split; congruence.
Qed.

Lemma updateSaonesLayer_same_data w : same_data w (updateSaonesLayer w).
Proof.
  unfold updateSaonesLayer, same_data.
  destruct (fglayer (this w)) as [g|] eqn:Eg.
  - destruct (hasLayer g w); world_simpl; rewrite Eg; world_simpl; repeat split.
  - destruct (layerControl (this w)) as [ov|] eqn:Ec; world_simpl; rewrite ?Ec;
      world_simpl; repeat split.
Qed.

Lemma addLegend_same_data w : same_data w (addLegend w).
Proof. unfold addLegend, same_data. world_simpl. repeat split. Qed.

Lemma updateLegend_same_data w : same_data w (updateLegend w).
Proof.
  unfold updateLegend. destruct (legend (this w));
    [apply same_data_refl|apply addLegend_same_data].
Qed.

Lemma refreshAllLayers_same_data w : same_data w (refreshAllLayers w).
Proof.
  unfold refreshAllLayers. destruct (saonesLayer (this w)); [|apply same_data_refl].
  unfold same_data. world_simpl. repeat split.
Qed.

Lemma startAutoRefresh_same_data ms w : same_data w (startAutoRefresh ms w).
Proof.
  unfold startAutoRefresh, same_data, setInterval, clearInterval.
  destruct (timer_set (autoRefreshTimer (this w))), (js_lt js0 ms);
    world_simpl; repeat split.
Qed.

Lemma scheduled_data w :
  saones (this (scheduled w)) = saones (this w) /\
  cands (this (scheduled w)) = cands (this w) /\
  scoreMap (this (scheduled w)) = scoreMap (this w) /\
  selectionIdMap (this (scheduled w)) = selectionIdMap (this w) /\
  console (page (scheduled w)) = console (page w) /\
  inited (this (scheduled w)) = true.
Proof.
  unfold scheduled. destruct (inited (this w)) eqn:E; world_simpl; repeat split; assumption.
Qed.

Lemma update_no_categorical options w :
  categoricalOf options = None ->
  update options w = (console_log "No data" (scheduled w), Normal).
Proof.
  intros E. unfold update, categoricalOf in *. fold (scheduled w). rewrite E. reflexivity.
Qed.

Lemma update_no_categories options w categorical :
  categoricalOf options = Some categorical ->
  categories categorical = None \/ categories categorical = Some [] ->
  update options w = (console_log "Not enough categories" (scheduled w), Normal).
Proof.
  intros E [C|C]; unfold update, categoricalOf in *; fold (scheduled w); rewrite E, C;
    reflexivity.
Qed.

Lemma update_one_category options w categorical column0 :
  categoricalOf options = Some categorical ->
  categories categorical = Some [column0] ->
  update options w =
  (scheduled w, Throw "TypeError: Cannot read properties of undefined (reading 'values')").
Proof.
  intros E C. unfold update, categoricalOf in *. fold (scheduled w). rewrite E, C.
  reflexivity.
Qed.

Lemma update_two_categories options w categorical column0 column1 rest :
  categoricalOf options = Some categorical ->
  categories categorical = Some (column0 :: column1 :: rest) ->
  update options w =
  (refreshed (stored column0 (default [] (measures categorical) !! 0)
                (assigned column0 column1 w)), Normal).
Proof.
  intros E C. unfold update, categoricalOf in *. fold (scheduled w). rewrite E, C.
  cbn [length Nat.ltb Nat.leb lookup list_lookup].
  fold (assigned column0 column1 w).
  destruct (measures categorical) as [[|scores ?]|]; reflexivity.
Qed.

Lemma refreshed_same_data w : same_data w (refreshed w).
Proof.
  unfold refreshed. destruct (_ && _); [|apply same_data_refl].
  eapply same_data_trans; [apply updateSaonesLayer_same_data|apply updateLegend_same_data].
Qed.

Lemma categoryColumns_cons options column0 columns :
  categoryColumns options = column0 :: columns ->
  exists categorical, categoricalOf options = Some categorical /\
    categories categorical = Some (column0 :: columns).
Proof.
  unfold categoryColumns. destruct (categoricalOf options) as [c|]; [|discriminate].
  destruct (categories c) as [cats|] eqn:Ecat; [|discriminate].
  simpl. intros ->. exists c. split; [reflexivity|exact Ecat].
Qed.

Lemma measureColumns_spec options categorical :
  categoricalOf options = Some categorical ->
  measureColumns options = default [] (measures categorical).
Proof. intros E. unfold measureColumns. rewrite E. reflexivity. Qed.

Lemma logged_app w w' l :
  console (page w') = console (page w) ++ l -> logged w w' = l.
Proof. intros E. unfold logged. rewrite E. apply drop_app_length. Qed.

Lemma logged_nil w w' : console (page w') = console (page w) -> logged w w' = [].
Proof. intros E. apply logged_app. rewrite E, app_nil_r. reflexivity. Qed.

(** C1, as amended: with no categorical column, or with at least two
    categorical columns and no numeric column, the call returns normally
    and both tables keep their entries; it logs "No data" when the data
    view or its categorical part is missing, "Not enough categories" when
    there is no categorical column, and nothing when only the numeric
    column is missing. *)
Theorem update_without_data (options : VisualUpdateOptions) (w : World) :
  categoryColumns options = [] \/
  (2 <= length (categoryColumns options) /\ measureColumns options = []) ->
  let w' := fst (update options w) in
  snd (update options w) = Normal /\
  scoreMap (this w') = scoreMap (this w) /\
  selectionIdMap (this w') = selectionIdMap (this w) /\
  logged w w' =
    match categoricalOf options with
    | None => ["No data"%string]
    | Some _ =>
        match categoryColumns options with
        | [] => ["Not enough categories"%string]
        | _ => []
        end
    end.
Proof.
  intros Hc w'. subst w'.
  destruct (scheduled_data w) as (_ & _ & Hs & Hi & Hl & _).
  destruct (categoricalOf options) as [c|] eqn:E.
  - destruct (categoryColumns options) as [|column0 cols] eqn:EC.
    + assert (Hcat : categories c = None \/ categories c = Some []).
      { unfold categoryColumns in EC. rewrite E in EC.
        destruct (categories c) as [[|? ?]|]; try discriminate; auto. }
      rewrite (update_no_categories options w c E Hcat). world_simpl.
      repeat split; try assumption. apply logged_app. world_simpl. congruence.
    + destruct Hc as [Hc|[Hlen Hm]]; [discriminate|].
      destruct cols as [|column1 rest]; [cbn in Hlen; lia|].
      destruct (categoryColumns_cons options _ _ EC) as (c' & E' & Hcat).
      assert (c' = c) as -> by congruence.
      rewrite (update_two_categories options w c column0 column1 rest E Hcat).
      rewrite (measureColumns_spec options c E) in Hm. rewrite Hm.
      cbn [lookup list_lookup stored fst snd].
      set (wa := assigned column0 column1 w).
      destruct (refreshed_same_data wa) as (_ & _ & Rs & Ri & Rl & _).
      assert (As : scoreMap (this wa) = scoreMap (this w))
        by (unfold wa, assigned; world_simpl; exact Hs).
      assert (Ai : selectionIdMap (this wa) = selectionIdMap (this w))
        by (unfold wa, assigned; world_simpl; exact Hi).
      assert (Al : console (page wa) = console (page w))
        by (unfold wa, assigned; world_simpl; exact Hl).
      split; [reflexivity|]. split; [congruence|]. split; [congruence|].
      apply logged_nil. congruence.
  - rewrite (update_no_categorical options w E). world_simpl.
    repeat split; try assumption. apply logged_app. world_simpl. congruence.
Qed.

(** C4: with two category columns and a numeric column, both tables have
    exactly the area codes of the batch as keys; the last row of each code
    gives its score and its selection identifier (made from the first
    category column and the row index); no other key is left, whatever the
    tables held before. *)
Theorem update_rebuilds_tables (options : VisualUpdateOptions) (w : World)
    (column0 column1 : DataViewColumn) (rest : list DataViewColumn)
    (scores : DataViewColumn) (rest' : list DataViewColumn) :
  categoryColumns options = column0 :: column1 :: rest ->
  measureColumns options = scores :: rest' ->
  let codes := map (fun code => JsString (Some code)) (values column0) in
  let w' := fst (update options w) in
  snd (update options w) = Normal /\
  dom (scoreMap (this w')) = list_to_set codes /\
  dom (selectionIdMap (this w')) = list_to_set codes /\
  (forall (n : nat) (k : string),
     codes !! n = Some k -> (forall n', n < n' -> codes !! n' <> Some k) ->
     scoreMap (this w') !! k = Some (values scores !! n) /\
     selectionIdMap (this w') !! k = Some {| sel_column := column0; sel_row := n |}) /\
  (forall k : string, k ∉ codes ->
     scoreMap (this w') !! k = None /\ selectionIdMap (this w') !! k = None).
Proof.
  intros EC EM codes w'. subst w'.
  destruct (categoryColumns_cons options _ _ EC) as (c & E & Hcat).
  rewrite (measureColumns_spec options c E) in EM.
  rewrite (update_two_categories options w c column0 column1 rest E Hcat), EM.
  cbn [lookup list_lookup fst snd].
  destruct (refreshed_same_data (stored column0 (Some scores) (assigned column0 column1 w)))
    as (_ & _ & Rs & Ri & _).
  rewrite Rs, Ri. clear Rs Ri.
  unfold stored, assigned. world_simpl. fold codes.
  destruct (storeRows column0 (values scores) codes 0 ∅ ∅) as [sm im] eqn:ES.
  world_simpl.
  assert (Esm : sm = fst (storeRows column0 (values scores) codes 0 ∅ ∅)) by (rewrite ES; reflexivity).
  assert (Eim : im = snd (storeRows column0 (values scores) codes 0 ∅ ∅)) by (rewrite ES; reflexivity).
  clear ES. subst sm im.
  split; [reflexivity|].
  destruct (storeRows_dom column0 (values scores) codes 0 ∅ ∅) as [D1 D2].
  split; [rewrite D1, dom_empty_L; apply (left_id_L ∅ (∪))|].
  split; [rewrite D2, dom_empty_L; apply (left_id_L ∅ (∪))|].
  split.
  - intros n k Hn Hlast.
    exact (storeRows_last column0 (values scores) codes 0 ∅ ∅ n k Hn Hlast).
  - intros k Hk.
    destruct (storeRows_notin column0 (values scores) codes 0 ∅ ∅ k Hk) as [-> ->].
    split; apply lookup_empty.
Qed.

(** The tables after an update that stores nothing, and after one that
    stores rows: the shared facts behind the properties of the binder. *)
Lemma update_tables_kept (options : VisualUpdateOptions) (w : World) :
  categoryColumns options = [] \/
  (2 <= length (categoryColumns options) /\ measureColumns options = []) ->
  scoreMap (this (fst (update options w))) = scoreMap (this w) /\
  selectionIdMap (this (fst (update options w))) = selectionIdMap (this w).
Proof.
  intros Hc.
  destruct (scheduled_data w) as (_ & _ & Hs & Hi & _).
  destruct (categoricalOf options) as [c|] eqn:E.
  - destruct (categoryColumns options) as [|column0 cols] eqn:EC.
    + assert (Hcat : categories c = None \/ categories c = Some []).
      { unfold categoryColumns in EC. rewrite E in EC.
        destruct (categories c) as [[|? ?]|]; try discriminate; auto. }
      rewrite (update_no_categories options w c E Hcat). world_simpl.
      split; assumption.
    + destruct Hc as [Hc|[Hlen Hm]]; [discriminate|].
      destruct cols as [|column1 rest]; [cbn in Hlen; lia|].
      destruct (categoryColumns_cons options _ _ EC) as (c' & E' & Hcat).
      assert (c' = c) as -> by congruence.
      rewrite (update_two_categories options w c column0 column1 rest E Hcat).
      rewrite (measureColumns_spec options c E) in Hm. rewrite Hm.
      cbn [lookup list_lookup stored fst].
      destruct (refreshed_same_data (assigned column0 column1 w)) as (_ & _ & -> & -> & _).
      unfold assigned; world_simpl. split; assumption.
  - rewrite (update_no_categorical options w E). world_simpl. split; assumption.
Qed.

Lemma update_tables_stored (options : VisualUpdateOptions) (w : World)
    (column0 column1 : DataViewColumn) (rest : list DataViewColumn)
    (scores : DataViewColumn) (rest' : list DataViewColumn) :
  categoryColumns options = column0 :: column1 :: rest ->
  measureColumns options = scores :: rest' ->
  let codes := map (fun code => JsString (Some code)) (values column0) in
  scoreMap (this (fst (update options w))) =
    fst (storeRows column0 (values scores) codes 0 ∅ ∅) /\
  selectionIdMap (this (fst (update options w))) =
    snd (storeRows column0 (values scores) codes 0 ∅ ∅).
Proof.
  intros EC EM codes.
  destruct (categoryColumns_cons options _ _ EC) as (c & E & Hcat).
  rewrite (measureColumns_spec options c E) in EM.
  rewrite (update_two_categories options w c column0 column1 rest E Hcat), EM.
  cbn [lookup list_lookup fst].
  destruct (refreshed_same_data (stored column0 (Some scores) (assigned column0 column1 w)))
    as (_ & _ & -> & -> & _).
  unfold stored, assigned. world_simpl. fold codes.
  destruct (storeRows column0 (values scores) codes 0 ∅ ∅) as [sm im].
  world_simpl. split; reflexivity.
Qed.

Lemma update_same_keys (options : VisualUpdateOptions) (w : World) :
  dom (scoreMap (this w)) = dom (selectionIdMap (this w)) ->
  dom (scoreMap (this (fst (update options w)))) =
  dom (selectionIdMap (this (fst (update options w)))).
Proof.
  intros Hw.
  destruct (scheduled_data w) as (_ & _ & Hs & Hi & _).
  destruct (categoryColumns options) as [|column0 [|column1 rest]] eqn:EC.
  - destruct (update_tables_kept options w (or_introl EC)) as (-> & ->).
    exact Hw.
  - destruct (categoryColumns_cons options _ _ EC) as (c & E & Hcat).
    rewrite (update_one_category options w c column0 E Hcat). cbn [fst]. congruence.
  - destruct (measureColumns options) as [|scores rest'] eqn:EM.
    + assert (Hlen : 2 <= length (categoryColumns options)) by (rewrite EC; cbn; lia).
      destruct (update_tables_kept options w (or_intror (conj Hlen EM))) as (-> & ->).
      exact Hw.
    + destruct (update_tables_stored options w _ _ _ _ _ EC EM) as (-> & ->).
      destruct (storeRows_dom column0 (values scores)
                  (map (fun code => JsString (Some code)) (values column0)) 0 ∅ ∅)
        as [-> ->].
      rewrite !dom_empty_L. reflexivity.
Qed.

End DataBinderFacts.

(** ** Lifecycle: what every run of events keeps *)

Section LifecycleFacts.
Context `{JsRuntime}.

Lemma initLayersAndUI_same_data w : same_data w (initLayersAndUI w).
Proof.
  unfold initLayersAndUI.
  set (w1 := on_this (set_layerControl (Some [])) w).
  assert (S1 : same_data w w1) by (unfold w1, same_data; world_simpl; repeat split).
  pose proof (addLegend_same_data w1) as S2.
  pose proof (startAutoRefresh_same_data sixHours (addLegend w1)) as S3.
  set (w3 := startAutoRefresh sixHours (addLegend w1)) in *.
  set (w4 := on_page (set_visibilityListener true) w3).
  assert (S4 : same_data w3 w4) by (unfold w4, same_data; world_simpl; repeat split).
  assert (S : same_data w w4) by (repeat (eapply same_data_trans; [eassumption|]); exact S4).
  destruct (0 <? length (saones (this w4))); [|exact S].
  eapply same_data_trans; [exact S|apply updateSaonesLayer_same_data].
Qed.

Lemma runCallback_same_data cb w : same_data w (runCallback cb w).
Proof.
  destruct cb; [apply initLayersAndUI_same_data|].
  unfold runCallback, same_data. world_simpl. repeat split.
Qed.

Lemma runFrame_same_data w : same_data w (runFrame w).
Proof.
  unfold runFrame.
  assert (S0 : same_data w (on_page (set_frames []) w))
    by (unfold same_data; world_simpl; repeat split).
  revert S0. generalize (on_page (set_frames []) w). generalize (frames (page w)).
  intros cbs. induction cbs as [|cb cbs IH]; intros w0 S0; [exact S0|].
  cbn [fold_left]. apply IH. eapply same_data_trans; [exact S0|apply runCallback_same_data].
Qed.

Lemma tick_same_data h w : same_data w (tick h w).
Proof.
  unfold tick. destruct (existsb _ _); [apply refreshAllLayers_same_data|apply same_data_refl].
Qed.

Lemma onVisibilityRefresh_same_data visible w : same_data w (onVisibilityRefresh visible w).
Proof.
  unfold onVisibilityRefresh. destruct visible;
    [apply refreshAllLayers_same_data|apply same_data_refl].
Qed.

Lemma step_same_keys (w : World) (e : Event) :
  dom (scoreMap (this w)) = dom (selectionIdMap (this w)) ->
  dom (scoreMap (this (step w e))) = dom (selectionIdMap (this (step w e))).
Proof.
  intros Hw. destruct e as [options| |h|visible]; cbn [step].
  - apply update_same_keys. exact Hw.
  - destruct (runFrame_same_data w) as (_ & _ & -> & -> & _). exact Hw.
  - destruct (tick_same_data h w) as (_ & _ & -> & -> & _). exact Hw.
  - destruct (visibilityListener (page w)); [|exact Hw].
    destruct (onVisibilityRefresh_same_data visible w) as (_ & _ & -> & -> & _). exact Hw.
Qed.

Lemma run_same_keys (es : list Event) (w : World) :
  dom (scoreMap (this w)) = dom (selectionIdMap (this w)) ->
  dom (scoreMap (this (run es w))) = dom (selectionIdMap (this (run es w))).
Proof.
  revert w. induction es as [|e es IH]; intros w Hw; [exact Hw|].
  cbn [run fold_left]. apply IH. apply step_same_keys. exact Hw.
Qed.

(** C5: after every update call, and after every other event, the
    Selection Table has exactly the keys of the Score Table. *)
Theorem tables_same_keys (es : list Event) (options : VisualUpdateOptions) :
  let w := run es initialWorld in
  dom (scoreMap (this w)) = dom (selectionIdMap (this w)) /\
  dom (scoreMap (this (fst (update options w)))) =
  dom (selectionIdMap (this (fst (update options w)))).
Proof.
  intros w.
  assert (Hw : dom (scoreMap (this w)) = dom (selectionIdMap (this w)))
    by (apply run_same_keys; reflexivity).
  split; [exact Hw|apply update_same_keys; exact Hw].
Qed.

(** Every call of [update] ends in one of three ways. *)
Lemma update_cases (options : VisualUpdateOptions) (w : World) :
  (exists msg, update options w = (console_log msg (scheduled w), Normal)) \/
  (exists error, update options w = (scheduled w, Throw error)) \/
  (exists column0 column1 scores,
     update options w =
     (refreshed (stored column0 scores (assigned column0 column1 w)), Normal)).
Proof.
  destruct (categoricalOf options) as [c|] eqn:E.
  - destruct (categories c) as [[|column0 [|column1 rest]]|] eqn:C.
    + left. eexists. apply (update_no_categories options w c E). auto.
    + right. left. eexists. apply (update_one_category options w c column0 E C).
    + right. right. do 3 eexists. apply (update_two_categories options w c _ _ _ E C).
    + left. eexists. apply (update_no_categories options w c E). auto.
  - left. eexists. apply (update_no_categorical options w E).
Qed.

(** *** The refresh scheduler *)

Lemma same_timers_refl w : same_timers w w.
Proof. repeat split. Qed.

Lemma same_timers_trans w1 w2 w3 :
  same_timers w1 w2 -> same_timers w2 w3 -> same_timers w1 w3.
Proof. unfold same_timers. intros (?&?&?) (?&?&?). repeat split; congruence. Qed.

Lemma timers_ok_same w w' : same_timers w w' -> timers_ok w -> timers_ok w'.
Proof.
  unfold same_timers, timers_ok, activeTimers. intros (Et & Ei & El) Hok.
  rewrite Et, Ei, El. exact Hok.
Qed.

Lemma updateSaonesLayer_same_timers w : same_timers w (updateSaonesLayer w).
Proof.
  unfold updateSaonesLayer, same_timers.
  destruct (fglayer (this w)) as [g|] eqn:Eg.
  - destruct (hasLayer g w); world_simpl; rewrite Eg; world_simpl; repeat split.
  - destruct (layerControl (this w)) as [ov|] eqn:Ec; world_simpl; rewrite ?Ec;
      world_simpl; repeat split.
Qed.

Lemma updateLegend_same_timers w : same_timers w (updateLegend w).
Proof.
  unfold updateLegend, addLegend, same_timers.
  destruct (legend (this w)); world_simpl; repeat split.
Qed.

Lemma refreshAllLayers_same_timers w : same_timers w (refreshAllLayers w).
Proof.
  unfold refreshAllLayers, same_timers.
  destruct (saonesLayer (this w)); world_simpl; repeat split.
Qed.

Lemma scheduled_same_timers w : same_timers w (scheduled w).
Proof.
  unfold scheduled, same_timers. destruct (inited (this w)); world_simpl; repeat split.
Qed.

Lemma refreshed_same_timers w : same_timers w (refreshed w).
Proof.
  unfold refreshed. destruct (_ && _); [|apply same_timers_refl].
  eapply same_timers_trans; [apply updateSaonesLayer_same_timers|apply updateLegend_same_timers].
Qed.

Lemma stored_same_timers column0 scores w : same_timers w (stored column0 scores w).
Proof.
  unfold stored, same_timers. destruct scores as [scores|]; [|repeat split].
  destruct (storeRows _ _ _ _ _ _). world_simpl. repeat split.
Qed.

Lemma update_same_timers options w : same_timers w (fst (update options w)).
Proof.
  pose proof (scheduled_same_timers w) as S.
  destruct (update_cases options w) as [[msg ->]|[[error ->]|(c0 & c1 & sc & ->)]]; cbn [fst].
  - eapply same_timers_trans; [exact S|]. unfold same_timers. world_simpl. repeat split.
  - exact S.
  - eapply same_timers_trans; [|apply refreshed_same_timers].
    eapply same_timers_trans; [|apply stored_same_timers].
    eapply same_timers_trans; [exact S|]. unfold assigned, same_timers. world_simpl.
    repeat split.
Qed.

Lemma timers_ok_at_most_one w : timers_ok w -> length (activeTimers w) <= 1.
Proof.
  intros (_ & Hnd & Hin). destruct (activeTimers w) as [|a [|b l]]; cbn [length]; try lia.
  exfalso.
  destruct (Hin a ltac:(set_solver)) as [Ea _]. destruct (Hin b ltac:(set_solver)) as [Eb _].
  assert (a = b) by congruence. subst b.
  apply NoDup_cons in Hnd as [Hn _]. apply Hn. set_solver.
Qed.

Lemma timers_ok_cleared w :
  timers_ok w ->
  intervals (page (match timer_set (autoRefreshTimer (this w)) with
                   | Some h => clearInterval h w
                   | None => w
                   end)) = [].
Proof.
  intros (Hl & Hnd & Hin). unfold activeTimers in *.
  destruct (timer_set (autoRefreshTimer (this w))) as [h|] eqn:Et.
  - unfold clearInterval. world_simpl.
    assert (Ea : autoRefreshTimer (this w) = Some h).
    { unfold timer_set in Et. destruct (autoRefreshTimer (this w)) as [h'|]; [|discriminate].
      destruct (h' =? 0)%Z; [discriminate|congruence]. }
    induction (intervals (page w)) as [|[h' ms] l IH]; [reflexivity|].
    cbn [List.filter fst].
    destruct (Hin h' ltac:(cbn; set_solver)) as [Eh _].
    assert (h' = h) by congruence. subst h'. rewrite Z.eqb_refl. cbn [negb].
    apply IH.
    + apply NoDup_cons in Hnd as [_ Hnd]. exact Hnd.
    + intros k Hk. apply Hin. cbn. set_solver.
  - destruct (intervals (page w)) as [|[h' ms] l]; [reflexivity|exfalso].
    destruct (Hin h' ltac:(cbn; set_solver)) as [Eh Hpos].
    unfold timer_set in Et. rewrite Eh in Et.
    destruct (Z.eqb_spec h' 0); [lia|discriminate].
Qed.

(** Starting the scheduler leaves no timer but the new one. *)
Lemma startAutoRefresh_timers ms w :
  timers_ok w ->
  timers_ok (startAutoRefresh ms w) /\
  activeTimers (startAutoRefresh ms w) =
    if js_lt js0 ms then [(lastHandle (page w) + 1)%Z] else [].
Proof.
  intros Hok. pose proof (timers_ok_cleared w Hok) as Hc.
  destruct Hok as (Hl & _ & _).
  unfold startAutoRefresh.
  set (w1 := match timer_set (autoRefreshTimer (this w)) with
             | Some h => clearInterval h w
             | None => w
             end) in *.
  assert (Hl1 : lastHandle (page w1) = lastHandle (page w)).
  { subst w1. destruct (timer_set _); [unfold clearInterval; world_simpl|]; reflexivity. }
  destruct (js_lt js0 ms).
  - unfold setInterval, timers_ok, activeTimers. world_simpl. rewrite Hc, Hl1.
    cbn [app map fst]. split; [|reflexivity].
    split; [lia|]. split; [apply NoDup_singleton|].
    intros h Hh. apply list_elem_of_singleton in Hh as ->. split; [reflexivity|lia].
  - unfold timers_ok, activeTimers. rewrite Hc, Hl1. cbn [map].
    split; [|reflexivity]. split; [exact Hl|]. split; [apply NoDup_nil_2|].
    intros h Hh. apply elem_of_nil in Hh. contradiction.
Qed.

Lemma initLayersAndUI_timers_ok w : timers_ok w -> timers_ok (initLayersAndUI w).
Proof.
  intros Hok. unfold initLayersAndUI.
  set (w2 := addLegend (on_this (set_layerControl (Some [])) w)).
  assert (S2 : same_timers w w2)
    by (unfold w2, addLegend, same_timers; world_simpl; repeat split).
  pose proof (proj1 (startAutoRefresh_timers sixHours w2 (timers_ok_same _ _ S2 Hok))) as H3.
  set (w3 := startAutoRefresh sixHours w2) in *.
  set (w4 := on_page (set_visibilityListener true) w3).
  assert (H4 : timers_ok w4).
  { apply (timers_ok_same w3); [|exact H3]. unfold w4, same_timers. world_simpl. repeat split. }
  destruct (0 <? length (saones (this w4))); [|exact H4].
  apply (timers_ok_same w4); [apply updateSaonesLayer_same_timers|exact H4].
Qed.

Lemma runFrame_timers_ok w : timers_ok w -> timers_ok (runFrame w).
Proof.
  intros Hok. unfold runFrame.
  assert (H0 : timers_ok (on_page (set_frames []) w)).
  { apply (timers_ok_same w); [|exact Hok]. unfold same_timers. world_simpl. repeat split. }
  revert H0. generalize (on_page (set_frames []) w). generalize (frames (page w)).
  intros cbs. induction cbs as [|cb cbs IH]; intros w0 H0; [exact H0|].
  cbn [fold_left]. apply IH. destruct cb; cbn [runCallback].
  - apply initLayersAndUI_timers_ok. exact H0.
  - apply (timers_ok_same w0); [|exact H0]. unfold same_timers. world_simpl. repeat split.
Qed.

Lemma step_timers_ok w e : timers_ok w -> timers_ok (step w e).
Proof.
  intros Hok. destruct e as [options| |h|visible]; cbn [step].
  - apply (timers_ok_same w); [apply update_same_timers|exact Hok].
  - apply runFrame_timers_ok. exact Hok.
  - unfold tick. destruct (existsb _ _); [|exact Hok].
    apply (timers_ok_same w); [apply refreshAllLayers_same_timers|exact Hok].
  - destruct (visibilityListener (page w)); [|exact Hok].
    unfold onVisibilityRefresh. destruct visible; [|exact Hok].
    apply (timers_ok_same w); [apply refreshAllLayers_same_timers|exact Hok].
Qed.

Lemma initialWorld_timers_ok : timers_ok initialWorld.
Proof.
  unfold timers_ok, activeTimers. cbn. split; [lia|]. split; [apply NoDup_nil_2|].
  intros h Hh. apply elem_of_nil in Hh. contradiction.
Qed.

Lemma run_timers_ok es w : timers_ok w -> timers_ok (run es w).
Proof.
  revert w. induction es as [|e es IH]; intros w Hw; [exact Hw|].
  cbn [run fold_left]. apply IH. apply step_timers_ok. exact Hw.
Qed.

Lemma starts_timers_ok (mss : list number) w :
  timers_ok w -> timers_ok (fold_left (fun w ms => startAutoRefresh ms w) mss w).
Proof.
  revert w. induction mss as [|ms mss IH]; intros w Hw; [exact Hw|].
  cbn [fold_left]. apply IH. apply startAutoRefresh_timers. exact Hw.
Qed.

(** What a start of the scheduler leaves: the timers of the page, the
    last handle handed out and the handle the visual holds. *)
Lemma startAutoRefresh_intervals ms w :
  timers_ok w ->
  intervals (page (startAutoRefresh ms w)) =
    (if js_lt js0 ms then [((lastHandle (page w) + 1)%Z, ms)] else []) /\
  lastHandle (page (startAutoRefresh ms w)) =
    (if js_lt js0 ms then (lastHandle (page w) + 1)%Z else lastHandle (page w)) /\
  (js_lt js0 ms = true ->
   autoRefreshTimer (this (startAutoRefresh ms w)) = Some (lastHandle (page w) + 1)%Z).
Proof.
  intros Hok. pose proof (timers_ok_cleared w Hok) as Hc.
  unfold startAutoRefresh.
  set (w1 := match timer_set (autoRefreshTimer (this w)) with
             | Some h => clearInterval h w
             | None => w
             end) in *.
  assert (Hl1 : lastHandle (page w1) = lastHandle (page w)).
  { subst w1. destruct (timer_set _); [unfold clearInterval; world_simpl|]; reflexivity. }
  destruct (js_lt js0 ms).
  - unfold setInterval. world_simpl. rewrite Hc, Hl1. repeat split.
  - rewrite Hc, Hl1. repeat split. discriminate.
Qed.

(** C9: whatever happened to the visual before, and however often the
    scheduler is started afterwards, at most one interval timer is active.
    A further start cancels what was running: every timer active before
    it is gone after it; with a positive interval exactly the new timer
    is installed, with a fresh handle and the interval asked for, and the
    visual holds that handle; with an interval that is not positive
    nothing is installed.  Starting twice with positive intervals leaves
    exactly one timer, the second one with the second interval. *)
Theorem startAutoRefresh_one_timer (es : list Event) (mss : list number) :
  let w := fold_left (fun w ms => startAutoRefresh ms w) mss (run es initialWorld) in
  length (activeTimers w) <= 1 /\
  (forall ms : number,
     let w' := startAutoRefresh ms w in
     (forall h, h ∈ activeTimers w -> h ∉ activeTimers w') /\
     (js_lt js0 ms = false -> intervals (page w') = []) /\
     (js_lt js0 ms = true ->
      intervals (page w') = [((lastHandle (page w) + 1)%Z, ms)] /\
      autoRefreshTimer (this w') = Some (lastHandle (page w) + 1)%Z)) /\
  forall ms1 ms2 : number,
    js_lt js0 ms1 = true -> js_lt js0 ms2 = true ->
    let w2 := startAutoRefresh ms2 (startAutoRefresh ms1 w) in
    intervals (page w2) = [((lastHandle (page w) + 2)%Z, ms2)] /\
    autoRefreshTimer (this w2) = Some (lastHandle (page w) + 2)%Z /\
    length (activeTimers w2) = 1.
Proof.
  intros w.
  assert (Hw : timers_ok w).
  { apply starts_timers_ok, run_timers_ok, initialWorld_timers_ok. }
  split; [apply timers_ok_at_most_one; exact Hw|]. split.
  - intros ms w'. destruct (startAutoRefresh_intervals ms w Hw) as (Hi & _ & Ht).
    fold w' in Hi, Ht. split; [|split].
    + intros h Hh. destruct Hw as (_ & _ & Hin). destruct (Hin h Hh) as [_ Hle].
      unfold activeTimers. rewrite Hi. destruct (js_lt js0 ms); cbn [map fst].
      * intros Hin'. apply list_elem_of_singleton in Hin'. lia.
      * apply not_elem_of_nil.
    + intros Hms. rewrite Hms in Hi. exact Hi.
    + intros Hms. rewrite Hms in Hi. split; [exact Hi|exact (Ht Hms)].
  - intros ms1 ms2 H1 H2 w2.
    destruct (startAutoRefresh_timers ms1 w Hw) as [Hw1 _].
    destruct (startAutoRefresh_intervals ms1 w Hw) as (_ & Hl1 & _).
    destruct (startAutoRefresh_intervals ms2 _ Hw1) as (Hi2 & _ & Ht2).
    fold w2 in Hi2, Ht2. rewrite H1 in Hl1. rewrite H2, Hl1 in Hi2.
    rewrite Hl1 in Ht2.
    replace (lastHandle (page w) + 1 + 1)%Z with (lastHandle (page w) + 2)%Z in * by lia.
    split; [exact Hi2|]. split; [exact (Ht2 H2)|].
    unfold activeTimers. rewrite Hi2. reflexivity.
Qed.

(** *** The feature group and the layer control *)

Lemma same_layers_trans w1 w2 w3 :
  same_layers w1 w2 -> same_layers w2 w3 -> same_layers w1 w3.
Proof. unfold same_layers. intros (?&?&?&?) (?&?&?&?). repeat split; congruence. Qed.

Lemma layers_ok_same w w' : same_layers w w' -> layers_ok w -> layers_ok w'.
Proof.
  unfold same_layers, layers_ok. intros (Ef & Ec & Eg & Em) Hok.
  rewrite Ef, Ec, Eg, Em. exact Hok.
Qed.

Lemma unregistered_same w w' : same_layers w w' -> unregistered w -> unregistered w'.
Proof.
  unfold same_layers, unregistered. intros (Ef & Ec & _) Hok. rewrite Ef, Ec. exact Hok.
Qed.

Lemma updateLegend_same_layers w : same_layers w (updateLegend w).
Proof.
  unfold updateLegend, addLegend, same_layers.
  destruct (legend (this w)); world_simpl; repeat split.
Qed.

Lemma refreshAllLayers_same_layers w : same_layers w (refreshAllLayers w).
Proof.
  unfold refreshAllLayers, same_layers.
  destruct (saonesLayer (this w)); world_simpl; repeat split.
Qed.

Lemma startAutoRefresh_same_layers ms w : same_layers w (startAutoRefresh ms w).
Proof.
  unfold startAutoRefresh, same_layers, setInterval, clearInterval.
  destruct (timer_set (autoRefreshTimer (this w))), (js_lt js0 ms);
    world_simpl; repeat split.
Qed.

Lemma prepared_same_layers column0 column1 scores w :
  same_layers w (stored column0 scores (assigned column0 column1 w)).
Proof.
  unfold stored, assigned, scheduled, same_layers.
  destruct scores as [scores|]; [destruct (storeRows _ _ _ _ _ _)|];
    destruct (inited (this w)); world_simpl; repeat split.
Qed.

Lemma updateSaonesLayer_layers_ok w : layers_ok w -> layers_ok (updateSaonesLayer w).
Proof.
  unfold layers_ok, updateSaonesLayer. intros [Hg Hc].
  destruct (fglayer (this w)) as [g|] eqn:Eg.
  - destruct Hg as (-> & Hlen & Hmap).
    destruct (hasLayer 0 w); world_simpl; rewrite ?Eg; world_simpl;
      rewrite ?Eg, ?length_alter, ?length_insert; (split; [auto|exact Hc]).
  - destruct Hg as (Hgr & Hmap).
    destruct (layerControl (this w)) as [ov|] eqn:Ec; world_simpl; rewrite ?Ec; world_simpl;
      rewrite ?Hgr, ?Hmap; cbn [length app]; rewrite ?length_alter; cbn [length app].
    + split; [auto|]. destruct Hc as [->|[_ Hf]]; [|discriminate]. right. auto.
    + split; [auto|]. rewrite Ec. exact I.
Qed.

Lemma updateSaonesLayer_unregistered w : unregistered w -> unregistered (updateSaonesLayer w).
Proof.
  unfold unregistered, updateSaonesLayer. intros [[g Eg] Hc]. rewrite Eg.
  destruct (hasLayer g w); world_simpl; rewrite Eg; world_simpl; (split; [eauto|exact Hc]).
Qed.

Lemma initLayersAndUI_layers w :
  (layers_ok w -> layers_ok (initLayersAndUI w)) /\
  (unregistered w -> unregistered (initLayersAndUI w)).
Proof.
  unfold initLayersAndUI.
  set (w1 := on_this (set_layerControl (Some [])) w).
  set (w4 := on_page (set_visibilityListener true) (startAutoRefresh sixHours (addLegend w1))).
  assert (S : same_layers w1 w4).
  { eapply same_layers_trans; [|eapply same_layers_trans].
    - instantiate (1 := addLegend w1). unfold addLegend, same_layers. world_simpl. repeat split.
    - apply startAutoRefresh_same_layers.
    - unfold w4, same_layers. world_simpl. repeat split. }
  split; intros Hok.
  - assert (H1 : layers_ok w1).
    { unfold layers_ok, w1 in *. world_simpl. destruct Hok as [Hg _]. split; [exact Hg|auto]. }
    pose proof (layers_ok_same _ _ S H1) as H4.
    destruct (0 <? length (saones (this w4))); [|exact H4].
    apply updateSaonesLayer_layers_ok. exact H4.
  - assert (H1 : unregistered w1).
    { unfold unregistered, w1 in *. world_simpl. destruct Hok as [Hg _]. split; [exact Hg|auto]. }
    pose proof (unregistered_same _ _ S H1) as H4.
    destruct (0 <? length (saones (this w4))); [|exact H4].
    apply updateSaonesLayer_unregistered. exact H4.
Qed.

Lemma refreshed_layers w :
  (layers_ok w -> layers_ok (refreshed w)) /\
  (unregistered w -> unregistered (refreshed w)).
Proof.
  unfold refreshed. destruct (_ && _); [|auto]. split; intros Hok.
  - apply (layers_ok_same (updateSaonesLayer w)); [apply updateLegend_same_layers|].
    apply updateSaonesLayer_layers_ok. exact Hok.
  - apply (unregistered_same (updateSaonesLayer w)); [apply updateLegend_same_layers|].
    apply updateSaonesLayer_unregistered. exact Hok.
Qed.

Lemma scheduled_same_layers w : same_layers w (scheduled w).
Proof.
  unfold scheduled, same_layers. destruct (inited (this w)); world_simpl; repeat split.
Qed.

Lemma update_layers options w :
  (layers_ok w -> layers_ok (fst (update options w))) /\
  (unregistered w -> unregistered (fst (update options w))).
Proof.
  pose proof (scheduled_same_layers w) as S.
  destruct (update_cases options w) as [[msg ->]|[[error ->]|(c0 & c1 & sc & ->)]]; cbn [fst].
  - assert (S' : same_layers w (console_log msg (scheduled w))).
    { eapply same_layers_trans; [exact S|]. unfold same_layers. world_simpl. repeat split. }
    split; intros Hok; [eapply layers_ok_same|eapply unregistered_same]; eassumption.
  - split; intros Hok; [eapply layers_ok_same|eapply unregistered_same]; eassumption.
  - pose proof (prepared_same_layers c0 c1 sc w) as S'.
    split; intros Hok.
    + apply refreshed_layers. eapply layers_ok_same; eassumption.
    + apply refreshed_layers. eapply unregistered_same; eassumption.
Qed.

Lemma runFrame_layers w :
  (layers_ok w -> layers_ok (runFrame w)) /\
  (unregistered w -> unregistered (runFrame w)).
Proof.
  unfold runFrame.
  assert (S0 : same_layers w (on_page (set_frames []) w))
    by (unfold same_layers; world_simpl; repeat split).
  assert (G : forall cbs w0,
    (layers_ok w0 -> layers_ok (fold_left (fun w cb => runCallback cb w) cbs w0)) /\
    (unregistered w0 -> unregistered (fold_left (fun w cb => runCallback cb w) cbs w0))).
  { intros cbs. induction cbs as [|cb cbs IH]; intros w0; [auto|].
    cbn [fold_left]. destruct (IH (runCallback cb w0)) as [IH1 IH2].
    assert (C : (layers_ok w0 -> layers_ok (runCallback cb w0)) /\
                (unregistered w0 -> unregistered (runCallback cb w0))).
    { destruct cb; cbn [runCallback]; [apply initLayersAndUI_layers|].
      assert (S1 : same_layers w0 (on_page (fun p => set_resizes (S (resizes p)) p) w0))
        by (unfold same_layers; world_simpl; repeat split).
      split; intros Hok; [eapply layers_ok_same|eapply unregistered_same]; eassumption. }
    destruct C as [C1 C2]. split; auto. }
  destruct (G (frames (page w)) (on_page (set_frames []) w)) as [G1 G2].
  split; intros Hok; [apply G1; eapply layers_ok_same|apply G2; eapply unregistered_same];
    eassumption.
Qed.

Lemma step_layers w e :
  (layers_ok w -> layers_ok (step w e)) /\
  (unregistered w -> unregistered (step w e)).
Proof.
  destruct e as [options| |h|visible]; cbn [step].
  - apply update_layers.
  - apply runFrame_layers.
  - unfold tick. destruct (existsb _ _); [|auto].
    pose proof (refreshAllLayers_same_layers w).
    split; intros Hok; [eapply layers_ok_same|eapply unregistered_same]; eassumption.
  - destruct (visibilityListener (page w)); [|auto].
    unfold onVisibilityRefresh. destruct visible; [|auto].
    pose proof (refreshAllLayers_same_layers w).
    split; intros Hok; [eapply layers_ok_same|eapply unregistered_same]; eassumption.
Qed.

Lemma run_layers es w :
  (layers_ok w -> layers_ok (run es w)) /\
  (unregistered w -> unregistered (run es w)).
Proof.
  revert w. induction es as [|e es IH]; intros w; [auto|].
  cbn [run fold_left]. destruct (IH (step w e)) as [IH1 IH2].
  destruct (step_layers w e) as [S1 S2]. split; auto.
Qed.

Lemma initialWorld_layers_ok : layers_ok initialWorld.
Proof. unfold layers_ok. cbn. auto. Qed.

Lemma first_update_unregistered (options : VisualUpdateOptions)
    (column0 column1 : DataViewColumn) (rest : list DataViewColumn) :
  categoryColumns options = column0 :: column1 :: rest -> values column0 <> [] ->
  unregistered (fst (update options initialWorld)) /\
  layers_ok (fst (update options initialWorld)).
Proof.
  intros EC Hrows.
  destruct (categoryColumns_cons options _ _ EC) as (c & E & Hcat).
  rewrite (update_two_categories options initialWorld c column0 column1 rest E Hcat).
  cbn [fst].
  set (w2 := stored column0 _ (assigned column0 column1 initialWorld)).
  pose proof (prepared_same_layers column0 column1
                (default [] (measures c) !! 0) initialWorld) as (Ef & Ec & Eg & Em).
  fold w2 in Ef, Ec, Eg, Em.
  assert (Hi : inited (this w2) = true /\
               saones (this w2) = map (fun code => JsString (Some code)) (values column0)).
  { unfold w2, stored, assigned, scheduled.
    destruct (default [] (measures c) !! 0) as [scores|];
      [destruct (storeRows _ _ _ _ _ _)|]; world_simpl; split; reflexivity. }
  destruct Hi as [Hi Hs].
  assert (Hlen : (0 <? length (saones (this w2))) = true).
  { rewrite Hs, length_map. destruct (values column0); [congruence|reflexivity]. }
  unfold refreshed. rewrite Hi, Hlen. cbn [andb].
  assert (Hu : unregistered (updateSaonesLayer w2) /\ layers_ok (updateSaonesLayer w2)).
  { unfold unregistered, layers_ok, updateSaonesLayer. rewrite Ef.
    cbn [initialWorld this fglayer]. world_simpl. rewrite Ec.
    cbn [initialWorld this layerControl]. world_simpl. rewrite Eg, Em.
    cbn [initialWorld page groups mapLayers length app].
    rewrite length_alter. cbn [length]. repeat split; eauto.
    rewrite Ec. exact I. }
  destruct Hu as [Hu Hl].
  pose proof (updateLegend_same_layers (updateSaonesLayer w2)) as S.
  split; [eapply unregistered_same|eapply layers_ok_same]; eassumption.
Qed.

(** C6: when the first update already carries rows, the layer group is
    made during that call, before the layer control exists; it is the one
    group ever made, and no later event registers it with the control,
    which stays absent or without overlay. *)
Theorem first_update_with_rows_never_registers (options : VisualUpdateOptions)
    (es : list Event) (column0 column1 : DataViewColumn) (rest : list DataViewColumn) :
  categoryColumns options = column0 :: column1 :: rest -> values column0 <> [] ->
  let w := run (EvUpdate options :: es) initialWorld in
  fglayer (this w) = Some 0 /\ length (groups (page w)) = 1 /\
  (layerControl (this w) = None \/ layerControl (this w) = Some []).
Proof.
  intros EC Hrows w.
  destruct (first_update_unregistered options column0 column1 rest EC Hrows) as [Hu Hl].
  assert (Ew : w = run es (fst (update options initialWorld))) by reflexivity.
  assert (Hu' : unregistered w) by (rewrite Ew; apply run_layers; exact Hu).
  assert (Hl' : layers_ok w) by (rewrite Ew; apply run_layers; exact Hl).
  destruct Hu' as [[g Eg] Hc]. destruct Hl' as [Hg _]. rewrite Eg in Hg.
  destruct Hg as (-> & Hlen & _). auto.
Qed.

(** With exactly one category column the call throws before it assigns
    anything but [inited]: the codes, the labels, both tables and the
    console are as before. *)
Lemma update_one_column (options : VisualUpdateOptions) (w : World)
    (column0 : DataViewColumn) :
  categoryColumns options = [column0] ->
  let w' := fst (update options w) in
  snd (update options w) =
    Throw "TypeError: Cannot read properties of undefined (reading 'values')" /\
  saones (this w') = saones (this w) /\ cands (this w') = cands (this w) /\
  scoreMap (this w') = scoreMap (this w) /\
  selectionIdMap (this w') = selectionIdMap (this w) /\
  console (page w') = console (page w) /\ inited (this w') = true.
Proof.
  intros EC w'. subst w'.
  destruct (categoryColumns_cons options _ _ EC) as (c & E & Hcat).
  rewrite (update_one_category options w c column0 E Hcat). cbn [fst snd].
  split; [reflexivity|]. apply scheduled_data.
Qed.

(** With at least two category columns and no numeric column the codes
    and the labels are replaced by those of the batch while both tables
    keep their entries. *)
Lemma update_codes_without_scores (options : VisualUpdateOptions) (w : World)
    (column0 column1 : DataViewColumn) (rest : list DataViewColumn) :
  categoryColumns options = column0 :: column1 :: rest ->
  measureColumns options = [] ->
  let w' := fst (update options w) in
  saones (this w') = map (fun code => JsString (Some code)) (values column0) /\
  cands (this w') = values column1 /\
  scoreMap (this w') = scoreMap (this w) /\
  selectionIdMap (this w') = selectionIdMap (this w).
Proof.
  intros EC EM w'.
  assert (Hlen : 2 <= length (categoryColumns options)) by (rewrite EC; cbn; lia).
  destruct (update_tables_kept options w (or_intror (conj Hlen EM))) as (Hs & Hi).
  fold w' in Hs, Hi. split; [|split; [|split; assumption]]; subst w'.
  - destruct (categoryColumns_cons options _ _ EC) as (c & E & Hcat).
    rewrite (update_two_categories options w c column0 column1 rest E Hcat).
    rewrite (measureColumns_spec options c E) in EM. rewrite EM.
    cbn [lookup list_lookup stored fst].
    destruct (refreshed_same_data (assigned column0 column1 w)) as (-> & _).
    reflexivity.
  - destruct (categoryColumns_cons options _ _ EC) as (c & E & Hcat).
    rewrite (update_two_categories options w c column0 column1 rest E Hcat).
    rewrite (measureColumns_spec options c E) in EM. rewrite EM.
    cbn [lookup list_lookup stored fst].
    destruct (refreshed_same_data (assigned column0 column1 w)) as (_ & -> & _).
    reflexivity.
Qed.

End LifecycleFacts.

(** ** Closed instances *)

Section Examples.
Local Open Scope string_scope.

(** C1, counterexample: a call with two category columns and no numeric
    column logs nothing, so "No data" is not reported. *)
Lemma update_without_scores_is_silent :
  ~ (forall (R : JsRuntime) (options : VisualUpdateOptions) (w : World),
       length (categoryColumns options) < 2 \/ measureColumns options = [] ->
       In "No data" (logged w (fst (update options w))) /\
       scoreMap (this (fst (update options w))) = scoreMap (this w) /\
       selectionIdMap (this (fst (update options w))) = selectionIdMap (this w)).
Proof.
  intros C. destruct (C textRuntime codesC initialWorld (or_intror eq_refl)) as [Hin _].
  vm_compute in Hin. exact Hin.
Qed.

(** Witness of [update_without_data]: the codes of (C, cand) without
    scores, after the rows A and B were bound. *)
Lemma update_without_data_witness :
  let w := fst (@update textRuntime rowsAB initialWorld) in
  let w' := fst (@update textRuntime codesC w) in
  snd (@update textRuntime codesC w) = Normal /\
  scoreMap (this w') = scoreMap (this w) /\
  selectionIdMap (this w') = selectionIdMap (this w) /\
  logged w w' = [].
Proof.
  exact (@update_without_data textRuntime codesC
           (fst (@update textRuntime rowsAB initialWorld))
           (or_intror (conj (le_n 2) eq_refl))).
Defined.

(** Witness of [update_rebuilds_tables]: the rows A and B. *)
Lemma update_rebuilds_tables_witness :
  let column0 := {| values := [PVString "A"; PVString "B"] |} in
  let scores := {| values := [PVNumber (lit 2 1); PVNumber (lit 8 1)] |} in
  let codes := ["A"; "B"] in
  let w' := fst (@update textRuntime rowsAB initialWorld) in
  snd (@update textRuntime rowsAB initialWorld) = Normal /\
  dom (scoreMap (this w')) = list_to_set codes /\
  dom (selectionIdMap (this w')) = list_to_set codes /\
  (forall (n : nat) (k : string),
     codes !! n = Some k -> (forall n', n < n' -> codes !! n' <> Some k) ->
     scoreMap (this w') !! k = Some (values scores !! n) /\
     selectionIdMap (this w') !! k = Some {| sel_column := column0; sel_row := n |}) /\
  (forall k : string, k ∉ codes ->
     scoreMap (this w') !! k = None /\ selectionIdMap (this w') !! k = None).
Proof.
  exact (@update_rebuilds_tables textRuntime rowsAB initialWorld
           {| values := [PVString "A"; PVString "B"] |}
           {| values := [PVString "cand"; PVString "cand"] |} []
           {| values := [PVNumber (lit 2 1); PVNumber (lit 8 1)] |} []
           eq_refl eq_refl).
Defined.

(** The example of the specification: the rows A and B give the Score
    Table {A: 0.2, B: 0.8}; the row C afterwards leaves only C. *)
Lemma update_example :
  let w1 := fst (@update textRuntime rowsAB initialWorld) in
  let w2 := fst (@update textRuntime rowsC w1) in
  scoreMap (this w1) =
    {[ "A" := Some (PVNumber (lit 2 1)); "B" := Some (PVNumber (lit 8 1)) ]} /\
  dom (selectionIdMap (this w1)) = {[ "A"; "B" ]} /\
  scoreMap (this w2) = {[ "C" := Some (PVNumber (lit 5 1)) ]} /\
  dom (selectionIdMap (this w2)) = {[ "C" ]}.
Proof. repeat split; apply (bool_decide_unpack _); vm_compute; exact I. Qed.

(** Witness of [startAutoRefresh_one_timer]: started with six hours and
    then with one second, the scheduler runs the one-second timer alone. *)
Lemma startAutoRefresh_one_timer_witness :
  let w2 := startAutoRefresh (of_Z 1000) (startAutoRefresh sixHours initialWorld) in
  intervals (page w2) = [(2%Z, of_Z 1000)] /\
  autoRefreshTimer (this w2) = Some 2%Z /\
  length (activeTimers w2) = 1.
Proof.
  exact (proj2 (proj2 (@startAutoRefresh_one_timer textRuntime [] [])) sixHours (of_Z 1000)
           eq_refl eq_refl).
Defined.

(** Witness of [whereClause_quotes_and_joins]: the codes 1 and 2'3. *)
Lemma whereClause_witness :
  whereClause ["1"; "2'3"] =
  "sa1_code_2021 IN (" +:+ in_list ["1"] +:+ comma_if ["1"] +:+
  "'" +:+ "2'3" +:+ "'" +:+ comma_if [] +:+ in_list [] +:+ ")".
Proof.
  exact (proj1 (proj2 (proj2 (whereClause_quotes_and_joins ["1"; "2'3"])))
           ["1"] "2'3" [] eq_refl).
Defined.

(** Witness of [first_update_with_rows_never_registers]: the rows A and B
    first, then the frame that builds the layer control, then the rows
    again. *)
Lemma first_update_with_rows_never_registers_witness :
  let w := @run textRuntime [EvUpdate rowsAB; EvFrame; EvUpdate rowsAB] initialWorld in
  fglayer (this w) = Some 0 /\ length (groups (page w)) = 1 /\
  (layerControl (this w) = None \/ layerControl (this w) = Some []).
Proof.
  apply (@first_update_with_rows_never_registers textRuntime rowsAB
           [EvFrame; EvUpdate rowsAB]
           {| values := [PVString "A"; PVString "B"] |}
           {| values := [PVString "cand"; PVString "cand"] |} []);
    [reflexivity|discriminate].
Defined.

(** C10: with the one category column [C] and no numeric column the call
    throws; the codes stay those of the rows A and B bound before and are
    not replaced by C. *)
Theorem update_one_column_keeps_codes :
  let w := fst (@update textRuntime rowsAB initialWorld) in
  length (categoryColumns oneColumnC) = 1 /\ measureColumns oneColumnC = [] /\
  snd (@update textRuntime oneColumnC w) =
    Throw "TypeError: Cannot read properties of undefined (reading 'values')" /\
  saones (this (fst (@update textRuntime oneColumnC w))) = ["A"; "B"] /\
  cands (this (fst (@update textRuntime oneColumnC w))) = cands (this w).
Proof.
  cbv zeta. repeat match goal with |- _ /\ _ => split end; vm_compute; reflexivity.
Qed.

End Examples.

(** ** Further properties of the classifier and the legend *)

Section MoreClassifierFacts.
Local Open Scope Z_scope.

(** Every score at or below 0 (negative numbers, minus infinity, both
    zeros) gets the first colour, every score at or above 1 (plus infinity
    included) the last. *)
Theorem classifier_saturates (s : number) :
  valid s = true ->
  (SFleb s js0 = true -> getColorByScore s = Some "#FF0000"%string) /\
  (SFleb js1 s = true -> getColorByScore s = Some "#00FF00"%string).
Proof.
  intros V. split; intros Hle.
  - destruct s as [b|b| |b m e]; try discriminate.
    + destruct b; reflexivity.
    + destruct b; [reflexivity|discriminate].
    + destruct b; [|discriminate].
      assert (N : normalized (S754_finite true m e) = js0) by reflexivity.
      unfold getColorByScore, clampedIndex, index. rewrite N. reflexivity.
  - destruct s as [b|b| |b m e]; try discriminate.
    + destruct b; [discriminate|reflexivity].
    + destruct b; [discriminate|].
      destruct (normalized_finite_pos m e V) as [(N & _)|(N & _ & He & Hu)].
      * unfold getColorByScore, clampedIndex, index. rewrite N. reflexivity.
      * unfold SFleb in Hle. rewrite SFcompare_js1 in Hle.
        destruct (Z.compare_spec (-52) e) as [E|L|G]; [|lia|discriminate].
        subst e.
        destruct (Z.compare_spec 4503599627370496 (Zpos m)) as [E|L|G]; [| |discriminate].
        -- injection E as <-. reflexivity.
        -- exfalso. cbn [ulps] in Hu.
           change (2 ^ 1074) with (4503599627370496 * 2 ^ (-52 + 1074)) in Hu.
           assert (0 < 2 ^ (-52 + 1074)) by (apply Z.pow_pos_nonneg; lia).
           generalize dependent (2 ^ (-52 + 1074)). intros. nia.
Qed.

(** Witness of [classifier_saturates]: the scores -0.5 and 1.5. *)
Lemma classifier_saturates_witness :
  getColorByScore (SFopp (lit 5 1)) = Some "#FF0000"%string /\
  getColorByScore (lit 15 1) = Some "#00FF00"%string.
Proof.
  split.
  - apply (proj1 (classifier_saturates (SFopp (lit 5 1)) eq_refl)). reflexivity.
  - apply (proj2 (classifier_saturates (lit 15 1) eq_refl)). reflexivity.
Defined.

(** Witness of [getColorByScore_bucket]: the score 0.94 is in bucket 9. *)
Lemma getColorByScore_bucket_witness :
  exists (j : Z) (c : string),
    bucket_index (lit 94 2) = Some j /\ 0 <= j <= 9 /\
    clampedIndex (lit 94 2) = of_Z j /\
    colors !! Z.to_nat j = Some c /\ getColorByScore (lit 94 2) = Some c.
Proof. exact (getColorByScore_bucket (lit 94 2) eq_refl eq_refl). Defined.

(** Every row of the legend shows the colour of its own bucket: row [i]
    (the middle of the i-th tenth) gets the i-th colour. *)
Theorem legend_rows_match_buckets (i : nat) :
  (i < 10)%nat -> legendColor (Z.of_nat i) = colors !! i.
Proof.
  intros Hi.
  do 10 (destruct i as [|i]; [vm_compute; reflexivity|]). lia.
Qed.

(** Witness of [legend_rows_match_buckets]: the row from 30% to 40%. *)
Lemma legend_rows_match_buckets_witness :
  legendColor 3 = Some "#FFA800"%string.
Proof. exact (legend_rows_match_buckets 3 (le_n_S _ _ (le_n_S _ _ (le_n_S _ _ (le_n_S _ _ (le_0_n _)))))). Defined.

End MoreClassifierFacts.

(** ** Further properties of the lifecycle *)

Section MoreLifecycleFacts.
Context `{JsRuntime}.

Lemma alter_at_end {A : Type} (f : A -> A) (l : list A) (x : A) :
  alter f (length l) (l ++ [x]) = l ++ [f x].
Proof.
  induction l as [|y l IH]; [reflexivity|].
  cbn [length app]. cbn [alter list_alter]. f_equal. exact IH.
Qed.

(** The remote layer [updateSaonesLayer] makes from the current codes. *)
Lemma updateSaonesLayer_query (w : World) :
  let l := length (featureLayers (page w)) in
  let w' := updateSaonesLayer w in
  saonesLayer (this w') = Some l /\
  featureLayers (page w') =
    featureLayers (page w) ++
    [{| url := tims; where_ := whereClause (saones (this w));
        pane := "workzones"; refreshes := 1 |}].
Proof.
  unfold updateSaonesLayer.
  destruct (fglayer (this w)) as [g|] eqn:Eg.
  - destruct (hasLayer g w); world_simpl; rewrite Eg; world_simpl;
      rewrite alter_at_end; split; reflexivity.
  - destruct (layerControl (this w)) as [ov|] eqn:Ec; world_simpl; rewrite ?Ec; world_simpl;
      rewrite alter_at_end; split; reflexivity.
Qed.

Lemma updateSaonesLayer_group (w : World) :
  layers_ok w ->
  groups (page (updateSaonesLayer w)) = [[length (featureLayers (page w))]] /\
  fglayer (this (updateSaonesLayer w)) = Some 0.
Proof.
  unfold layers_ok, updateSaonesLayer. intros [Hg _].
  destruct (fglayer (this w)) as [g|] eqn:Eg.
  - destruct Hg as (-> & Hlen & Hmap). unfold hasLayer. rewrite Hmap. cbn [existsb Nat.eqb orb].
    world_simpl. rewrite Eg. world_simpl.
    destruct (groups (page w)) as [|x [|y gs]]; try discriminate.
    split; [reflexivity|exact Eg].
  - destruct Hg as (Hgr & Hmap).
    destruct (layerControl (this w)) as [ov|] eqn:Ec; world_simpl; rewrite ?Ec; world_simpl;
      rewrite Hgr; split; reflexivity.
Qed.

(** In every run, a refresh of the boundary layer leaves the one feature
    group holding exactly the remote layer it has just made (what the
    group held before is cleared), and that layer asks for the current
    codes and has been refreshed once. *)
Theorem updateSaonesLayer_replaces (es : list Event) :
  let w := run es initialWorld in
  let l := length (featureLayers (page w)) in
  let w' := updateSaonesLayer w in
  fglayer (this w') = Some 0 /\ groups (page w') = [[l]] /\
  saonesLayer (this w') = Some l /\
  featureLayers (page w') !! l =
    Some {| url := tims; where_ := whereClause (saones (this w));
            pane := "workzones"; refreshes := 1 |}.
Proof.
  intros w l w'.
  assert (Hok : layers_ok w) by (apply run_layers, initialWorld_layers_ok).
  destruct (updateSaonesLayer_group w Hok) as [Hg Hf].
  destruct (updateSaonesLayer_query w) as [Hs Hl].
  subst w'. rewrite Hf, Hg, Hs, Hl. repeat split.
  subst l. rewrite lookup_app_r by lia. rewrite Nat.sub_diag. reflexivity.
Qed.

(** In every run there is at most one feature group, it is on the map
    at most once, and the layer control lists at most one overlay. *)
Theorem one_feature_group (es : list Event) :
  let w := run es initialWorld in
  length (groups (page w)) <= 1 /\ length (mapLayers (page w)) <= 1 /\
  match layerControl (this w) with
  | Some overlays => length overlays <= 1
  | None => True
  end.
Proof.
  intros w.
  assert (Hok : layers_ok w) by (apply run_layers, initialWorld_layers_ok).
  destruct Hok as [Hg Hc].
  destruct (fglayer (this w)) as [g|].
  - destruct Hg as (_ & -> & ->). split; [lia|]. split; [cbn; lia|].
    destruct (layerControl (this w)) as [ov|]; [|exact I].
    destruct Hc as [->|[-> _]]; cbn; lia.
  - destruct Hg as (-> & ->). split; [cbn; lia|]. split; [cbn; lia|].
    destruct (layerControl (this w)) as [ov|]; [|exact I].
    destruct Hc as [->|[_ Hf]]; [cbn; lia|discriminate].
Qed.

(** Every update with at least two category columns and at least one row
    makes a new remote layer that asks for exactly the codes of the batch,
    and makes it the current one. *)
Theorem update_queries_batch (options : VisualUpdateOptions) (w : World)
    (column0 column1 : DataViewColumn) (rest : list DataViewColumn) :
  categoryColumns options = column0 :: column1 :: rest -> values column0 <> [] ->
  let codes := map (fun code => JsString (Some code)) (values column0) in
  let w' := fst (update options w) in
  saonesLayer (this w') = Some (length (featureLayers (page w))) /\
  featureLayers (page w') =
    featureLayers (page w) ++
    [{| url := tims; where_ := whereClause codes; pane := "workzones"; refreshes := 1 |}].
Proof.
  intros EC Hrows codes w'. subst w'.
  destruct (categoryColumns_cons options _ _ EC) as (c & E & Hcat).
  rewrite (update_two_categories options w c column0 column1 rest E Hcat). cbn [fst].
  set (w2 := stored column0 _ (assigned column0 column1 w)).
  assert (Hi : inited (this w2) = true /\ saones (this w2) = codes /\
               featureLayers (page w2) = featureLayers (page w)).
  { unfold w2, stored, assigned, scheduled.
    destruct (default [] (measures c) !! 0) as [scores|];
      [destruct (storeRows _ _ _ _ _ _)|]; destruct (inited (this w)) eqn:Ei;
      world_simpl; rewrite ?Ei; repeat split; reflexivity. }
  destruct Hi as (Hi & Hs & Hf).
  assert (Hlen : (0 <? length (saones (this w2))) = true).
  { rewrite Hs. unfold codes. rewrite length_map.
    destruct (values column0); [congruence|reflexivity]. }
  unfold refreshed. rewrite Hi, Hlen. cbn [andb].
  destruct (updateSaonesLayer_query w2) as [Qs Ql]. rewrite Hs, Hf in *.
  unfold updateLegend, addLegend. destruct (legend (this (updateSaonesLayer w2)));
    world_simpl; rewrite Qs, Ql; split; reflexivity.
Qed.

(** An update whose first category column has no row empties the codes
    and, when there is a numeric column, both tables, but leaves the
    boundary layer as it was: no remote layer is made or refreshed and the
    feature group keeps its content. *)
Theorem update_empty_batch (options : VisualUpdateOptions) (w : World)
    (column0 column1 : DataViewColumn) (rest : list DataViewColumn) :
  categoryColumns options = column0 :: column1 :: rest -> values column0 = [] ->
  let w' := fst (update options w) in
  saones (this w') = [] /\
  (measureColumns options <> [] ->
   scoreMap (this w') = ∅ /\ selectionIdMap (this w') = ∅) /\
  featureLayers (page w') = featureLayers (page w) /\
  saonesLayer (this w') = saonesLayer (this w) /\
  groups (page w') = groups (page w).
Proof.
  intros EC Hrows w'. subst w'.
  destruct (categoryColumns_cons options _ _ EC) as (c & E & Hcat).
  rewrite (update_two_categories options w c column0 column1 rest E Hcat). cbn [fst].
  rewrite (measureColumns_spec options c E).
  set (w2 := stored column0 _ (assigned column0 column1 w)).
  assert (Hs : saones (this w2) = []).
  { unfold w2, stored, assigned.
    destruct (default [] (measures c) !! 0) as [scores|];
      [destruct (storeRows _ _ _ _ _ _)|]; world_simpl; rewrite Hrows; reflexivity. }
  unfold refreshed. rewrite Hs. cbn [length Nat.ltb Nat.leb]. rewrite andb_false_r.
  split; [exact Hs|].
  unfold w2, stored, assigned, scheduled. rewrite Hrows.
  destruct (measures c) as [[|scores ms]|]; cbn [default from_option id lookup list_lookup];
    world_simpl; cbn [map storeRows]; world_simpl;
    destruct (inited (this w)); world_simpl; repeat split; congruence.
Qed.

(** Stopping the visual: in every run, [destroy] leaves no interval timer
    active, no visibility listener, no legend of [this] on the map, and
    the map removed. *)
Theorem destroy_releases (es : list Event) :
  let w := destroy (run es initialWorld) in
  activeTimers w = [] /\ visibilityListener (page w) = false /\
  mapRemoved (page w) = true /\
  forall id, legend (this w) = Some id -> id ∉ mapLegends (page w).
Proof.
  intros w.
  assert (Hok : timers_ok (run es initialWorld))
    by (apply run_timers_ok, initialWorld_timers_ok).
  pose proof (timers_ok_cleared _ Hok) as Hc. subst w. unfold destroy, activeTimers.
  set (w1 := match timer_set (autoRefreshTimer (this (run es initialWorld))) with
             | Some h => clearInterval h (run es initialWorld)
             | None => run es initialWorld
             end) in *.
  destruct (legend (this (on_page (set_visibilityListener false) w1))) as [id|] eqn:El;
    world_simpl; rewrite ?El, Hc; repeat split; try discriminate.
  intros id' [= <-]. intros Hin. apply list_elem_of_In, filter_In in Hin as [_ Hne].
  rewrite Nat.eqb_refl in Hne. discriminate.
Qed.

(** A start with an interval that is not positive (zero, negative, NaN)
    stops the scheduler: in every run it leaves no timer active; a start
    with a positive interval leaves exactly the timer with the next
    handle, which the visual keeps. *)
Theorem startAutoRefresh_installs (es : list Event) (ms : number) :
  let w := run es initialWorld in
  let w' := startAutoRefresh ms w in
  (js_lt js0 ms = false -> activeTimers w' = []) /\
  (js_lt js0 ms = true ->
   activeTimers w' = [(lastHandle (page w) + 1)%Z] /\
   autoRefreshTimer (this w') = Some (lastHandle (page w) + 1)%Z).
Proof.
  intros w w'.
  assert (Hok : timers_ok w) by (apply run_timers_ok, initialWorld_timers_ok).
  destruct (startAutoRefresh_timers ms w Hok) as [Hok' Ha]. fold w' in Hok', Ha.
  split; intros Hms; rewrite Hms in Ha; [exact Ha|].
  split; [exact Ha|].
  destruct Hok' as (_ & _ & Hin). apply (Hin (lastHandle (page w) + 1)%Z).
  rewrite Ha. apply list_elem_of_singleton. reflexivity.
Qed.

End MoreLifecycleFacts.

(** ** The legend controls, the fill colour and the click *)

Section LegendFacts.
Context `{JsRuntime}.

Lemma same_legends_trans w1 w2 w3 :
  same_legends w1 w2 -> same_legends w2 w3 -> same_legends w1 w3.
Proof.
  unfold same_legends. intros (?&?&?&?&?) (?&?&?&?&?). repeat split; congruence.
Qed.

Lemma legends_at_same k w w' : same_legends w w' -> legends_at k w -> legends_at k w'.
Proof.
  unfold same_legends, legends_at. intros (El & Ec & Em & Ei & _) Hok.
  rewrite El, Ec, Em, Ei. exact Hok.
Qed.

Lemma updateSaonesLayer_same_legends w : same_legends w (updateSaonesLayer w).
Proof.
  unfold updateSaonesLayer, same_legends.
  destruct (fglayer (this w)) as [g|] eqn:Eg.
  - destruct (hasLayer g w); world_simpl; rewrite Eg; world_simpl; repeat split.
  - destruct (layerControl (this w)) as [ov|] eqn:Ec; world_simpl; rewrite ?Ec;
      world_simpl; repeat split.
Qed.

Lemma refreshAllLayers_same_legends w : same_legends w (refreshAllLayers w).
Proof.
  unfold refreshAllLayers, same_legends.
  destruct (saonesLayer (this w)); world_simpl; repeat split.
Qed.

Lemma startAutoRefresh_same_legends ms w : same_legends w (startAutoRefresh ms w).
Proof.
  unfold startAutoRefresh, same_legends, setInterval, clearInterval.
  destruct (timer_set (autoRefreshTimer (this w))), (js_lt js0 ms);
    world_simpl; repeat split.
Qed.

Lemma prepared_same_legends column0 column1 scores w :
  same_legends (scheduled w) (stored column0 scores (assigned column0 column1 w)).
Proof.
  unfold stored, assigned, same_legends.
  destruct scores as [scores|]; [destruct (storeRows _ _ _ _ _ _)|];
    world_simpl; repeat split.
Qed.

Lemma addLegend_legends w :
  mapLegends (page w) = seq 0 (legendCount (page w)) ->
  mapLegends (page (addLegend w)) = seq 0 (legendCount (page (addLegend w))) /\
  legendCount (page (addLegend w)) = S (legendCount (page w)) /\
  legend (this (addLegend w)) = Some (legendCount (page w)) /\
  inited (this (addLegend w)) = inited (this w) /\
  frames (page (addLegend w)) = frames (page w).
Proof.
  intros Hm. unfold addLegend. world_simpl. rewrite Hm, seq_S. repeat split.
Qed.

Lemma scheduled_legends w :
  legends_ok w -> legends_at (pendingInits (frames (page (scheduled w)))) (scheduled w) /\
  inited (this (scheduled w)) = true.
Proof.
  unfold legends_ok, legends_at, scheduled, pendingInits. intros [Hm Hc].
  destruct (inited (this w)) eqn:Ei; world_simpl; rewrite ?Ei;
    rewrite ?List.filter_app, ?length_app; cbn [List.filter isInit length];
    rewrite ?Nat.add_0_r.
  - split; [split; assumption|reflexivity].
  - destruct (length (List.filter isInit (frames (page w)))) as [|k]; [|contradiction].
    cbn [Nat.add]. split; [split; [assumption|left; exact Hc]|reflexivity].
Qed.

Lemma updateLegend_legends k w :
  inited (this w) = true -> legends_at k w -> legends_at k (updateLegend w).
Proof.
  unfold updateLegend. intros Hi Hok. destruct (legend (this w)) as [id|] eqn:El; [exact Hok|].
  destruct Hok as [Hm Hc]. destruct (addLegend_legends w Hm) as (Am & Ac & Al & Ai & _).
  unfold legends_at. rewrite Am, Ac, Al, Ai, Hi in *. split; [reflexivity|].
  destruct k as [|[|k]]; [| |contradiction].
  - destruct Hc as [[_ Hc]|[_ Hc]]; congruence.
  - destruct Hc as [[-> _]|[_ Hc]]; [right; auto|congruence].
Qed.

Lemma update_legends_ok options w : legends_ok w -> legends_ok (fst (update options w)).
Proof.
  intros Hok. destruct (scheduled_legends w Hok) as [Hs Hi].
  destruct (update_cases options w) as [[msg ->]|[[error ->]|(c0 & c1 & sc & ->)]]; cbn [fst].
  - unfold legends_ok. world_simpl. revert Hs. apply legends_at_same.
    unfold same_legends. world_simpl. repeat split.
  - exact Hs.
  - pose proof (prepared_same_legends c0 c1 sc w) as S.
    set (w2 := stored c0 sc (assigned c0 c1 w)) in *.
    assert (H2 : legends_at (pendingInits (frames (page w2))) w2).
    { destruct S as (_ & _ & _ & _ & Ef). rewrite Ef. revert Hs. apply legends_at_same.
      unfold same_legends. destruct (prepared_same_legends c0 c1 sc w) as (?&?&?&?&?).
      repeat split; assumption. }
    assert (Hi2 : inited (this w2) = true).
    { destruct S as (_ & _ & _ & -> & _). exact Hi. }
    unfold refreshed. rewrite Hi2. cbn [andb].
    destruct (0 <? length (saones (this w2))); [|exact H2].
    pose proof (updateSaonesLayer_same_legends w2) as S3.
    set (w3 := updateSaonesLayer w2) in *.
    assert (Ef3 : frames (page (updateLegend w3)) = frames (page w2)).
    { destruct S3 as (_ & _ & _ & _ & Ef3). rewrite <- Ef3.
      unfold updateLegend, addLegend. destruct (legend (this w3)); world_simpl; reflexivity. }
    unfold legends_ok. rewrite Ef3. apply updateLegend_legends.
    + destruct S3 as (_ & _ & _ & -> & _). exact Hi2.
    + revert H2. apply legends_at_same. exact S3.
Qed.

Lemma initLayersAndUI_legends w :
  legends_at 1 w -> legends_at 0 (initLayersAndUI w) /\
  frames (page (initLayersAndUI w)) = frames (page w).
Proof.
  intros [Hm Hc]. unfold initLayersAndUI.
  set (w1 := on_this (set_layerControl (Some [])) w).
  assert (Hm1 : mapLegends (page w1) = seq 0 (legendCount (page w1))) by exact Hm.
  destruct (addLegend_legends w1 Hm1) as (Am & Ac & Al & Ai & Af).
  set (w2 := addLegend w1) in *.
  assert (H2 : legends_at 0 w2).
  { unfold legends_at. rewrite Am, Ac, Al, Ai. unfold w1. world_simpl.
    split; [reflexivity|]. destruct (inited (this w)); [|contradiction].
    destruct Hc as [[-> _]|[-> _]]; auto. }
  set (w4 := on_page (set_visibilityListener true) (startAutoRefresh sixHours w2)).
  assert (S : same_legends w2 w4).
  { eapply same_legends_trans; [apply startAutoRefresh_same_legends|].
    unfold w4, same_legends. world_simpl. repeat split. }
  assert (Ef : frames (page w4) = frames (page w)).
  { destruct S as (_ & _ & _ & _ & ->). rewrite Af. reflexivity. }
  destruct (0 <? length (saones (this w4))).
  - pose proof (updateSaonesLayer_same_legends w4) as S5. split.
    + eapply legends_at_same; [exact S5|]. eapply legends_at_same; eassumption.
    + destruct S5 as (_ & _ & _ & _ & ->). exact Ef.
  - split; [eapply legends_at_same; eassumption|exact Ef].
Qed.

Lemma runCallbacks_legends cbs w :
  frames (page w) = [] -> legends_at (pendingInits cbs) w ->
  legends_ok (fold_left (fun w cb => runCallback cb w) cbs w).
Proof.
  revert w. induction cbs as [|cb cbs IH]; intros w Hf Hok.
  - cbn [fold_left]. unfold legends_ok. rewrite Hf. exact Hok.
  - cbn [fold_left]. destruct cb; cbn [runCallback].
    + unfold pendingInits in Hok. cbn [List.filter isInit length] in Hok.
      fold (pendingInits cbs) in Hok.
      assert (Hk : pendingInits cbs = 0).
      { destruct Hok as [_ Hc]. destruct (inited (this w)), (pendingInits cbs);
          try reflexivity; contradiction. }
      rewrite Hk in *. destruct (initLayersAndUI_legends w Hok) as [Hok' Hf'].
      apply IH; [congruence|]. exact Hok'.
    + apply IH; [world_simpl; exact Hf|].
      revert Hok. apply legends_at_same. unfold same_legends. world_simpl. repeat split.
Qed.

Lemma runFrame_legends_ok w : legends_ok w -> legends_ok (runFrame w).
Proof.
  intros Hok. unfold runFrame. apply runCallbacks_legends; [reflexivity|].
  unfold legends_ok, legends_at in *. world_simpl. exact Hok.
Qed.

Lemma step_legends_ok w e : legends_ok w -> legends_ok (step w e).
Proof.
  intros Hok. destruct e as [options| |h|visible]; cbn [step].
  - apply update_legends_ok. exact Hok.
  - apply runFrame_legends_ok. exact Hok.
  - unfold tick. destruct (existsb _ _); [|exact Hok].
    pose proof (refreshAllLayers_same_legends w) as S. unfold legends_ok.
    destruct S as (?&?&?&?&Ef). rewrite Ef. revert Hok. apply legends_at_same.
    repeat split; assumption.
  - destruct (visibilityListener (page w)); [|exact Hok].
    unfold onVisibilityRefresh. destruct visible; [|exact Hok].
    pose proof (refreshAllLayers_same_legends w) as S. unfold legends_ok.
    destruct S as (?&?&?&?&Ef). rewrite Ef. revert Hok. apply legends_at_same.
    repeat split; assumption.
Qed.

Lemma run_legends_ok es w : legends_ok w -> legends_ok (run es w).
Proof.
  revert w. induction es as [|e es IH]; intros w Hw; [exact Hw|].
  cbn [run fold_left]. apply IH. apply step_legends_ok. exact Hw.
Qed.

(** In every run at most two legend controls are on the map, and the one
    [this.legend] holds is among them. *)
Theorem legends_at_most_two (es : list Event) :
  let w := run es initialWorld in
  length (mapLegends (page w)) <= 2 /\
  forall id, legend (this w) = Some id -> id ∈ mapLegends (page w).
Proof.
  intros w.
  assert (Hok : legends_ok w).
  { apply run_legends_ok. unfold legends_ok, legends_at. cbn. auto. }
  destruct Hok as [Hm Hc]. rewrite Hm, length_seq.
  assert (Hcases : (legendCount (page w) = 0 /\ legend (this w) = None) \/
                   (legendCount (page w) = 1 /\ legend (this w) = Some 0) \/
                   (legendCount (page w) = 2 /\ legend (this w) = Some 1)).
  { destruct (inited (this w)), (pendingInits (frames (page w))) as [|[|k]];
      try contradiction; tauto. }
  destruct Hcases as [[-> El]|[[-> El]|[-> El]]]; (split; [lia|]);
    intros id Hid; rewrite El in Hid; try discriminate;
    injection Hid as <-; cbn; set_solver.
Qed.

Lemma initLayersAndUI_adds_legend (w : World) :
  legendCount (page (initLayersAndUI w)) = S (legendCount (page w)) /\
  legend (this (initLayersAndUI w)) = Some (legendCount (page w)) /\
  mapLegends (page (initLayersAndUI w)) = mapLegends (page w) ++ [legendCount (page w)].
Proof.
  unfold initLayersAndUI.
  set (w2 := addLegend (on_this (set_layerControl (Some [])) w)).
  assert (A2 : legendCount (page w2) = S (legendCount (page w)) /\
               legend (this w2) = Some (legendCount (page w)) /\
               mapLegends (page w2) = mapLegends (page w) ++ [legendCount (page w)]).
  { unfold w2, addLegend. world_simpl. repeat split. }
  clearbody w2.
  set (w4 := on_page (set_visibilityListener true) (startAutoRefresh sixHours w2)).
  assert (A4 : legendCount (page w4) = S (legendCount (page w)) /\
               legend (this w4) = Some (legendCount (page w)) /\
               mapLegends (page w4) = mapLegends (page w) ++ [legendCount (page w)]).
  { unfold w4. world_simpl.
    destruct (startAutoRefresh_same_legends sixHours w2) as (-> & -> & -> & _). exact A2. }
  clearbody w4.
  destruct (0 <? length (saones (this w4))); [|exact A4].
  destruct (updateSaonesLayer_same_legends w4) as (-> & -> & -> & _). exact A4.
Qed.

Lemma refreshed_adds_legend (w : World) :
  inited (this w) = true -> (0 <? length (saones (this w))) = true ->
  legend (this w) = None ->
  legendCount (page (refreshed w)) = S (legendCount (page w)) /\
  mapLegends (page (refreshed w)) = mapLegends (page w) ++ [legendCount (page w)] /\
  frames (page (refreshed w)) = frames (page w).
Proof.
  intros Hi Hlen El. unfold refreshed. rewrite Hi, Hlen. cbn [andb].
  destruct (updateSaonesLayer_same_legends w) as (Ul & Uc & Um & _ & Uf).
  generalize dependent (updateSaonesLayer w). intros w3 Ul Uc Um Uf.
  unfold updateLegend. rewrite Ul, El. unfold addLegend. world_simpl.
  rewrite Uc, Um, Uf. repeat split.
Qed.

Lemma runFrame_init_resize (w : World) :
  frames (page w) = [CbInitLayersAndUI; CbInvalidateSize] ->
  legendCount (page (runFrame w)) = S (legendCount (page w)) /\
  legend (this (runFrame w)) = Some (legendCount (page w)) /\
  mapLegends (page (runFrame w)) = mapLegends (page w) ++ [legendCount (page w)].
Proof.
  intros Hf. unfold runFrame. rewrite Hf. cbn [fold_left runCallback].
  destruct (initLayersAndUI_adds_legend (on_page (set_frames []) w)) as (Ic & Il & Im).
  generalize dependent (initLayersAndUI (on_page (set_frames []) w)). intros w7 Ic Il Im.
  world_simpl. repeat split; assumption.
Qed.

(** When the first update carries rows, the update puts a legend on the
    map and the deferred initialisation a second one: after the first
    frame two legend controls are on the map. *)
Theorem first_update_with_rows_two_legends (options : VisualUpdateOptions)
    (column0 column1 : DataViewColumn) (rest : list DataViewColumn) :
  categoryColumns options = column0 :: column1 :: rest -> values column0 <> [] ->
  let w := run [EvUpdate options; EvFrame] initialWorld in
  mapLegends (page w) = [0; 1] /\ legend (this w) = Some 1.
Proof.
  intros EC Hrows w. subst w.
  change (run [EvUpdate options; EvFrame] initialWorld)
    with (runFrame (fst (update options initialWorld))).
  destruct (categoryColumns_cons options _ _ EC) as (c & E & Hcat).
  rewrite (update_two_categories options initialWorld c column0 column1 rest E Hcat).
  cbn [fst].
  pose proof (prepared_same_legends column0 column1
                (default [] (measures c) !! 0) initialWorld) as (El & Ec & Em & Ei & Ef).
  assert (Hs : saones (this (stored column0 (default [] (measures c) !! 0)
                               (assigned column0 column1 initialWorld))) =
               map (fun code => JsString (Some code)) (values column0)).
  { unfold stored, assigned.
    destruct (default [] (measures c) !! 0) as [scores|];
      [destruct (storeRows _ _ _ _ _ _)|]; world_simpl; reflexivity. }
  generalize dependent (stored column0 (default [] (measures c) !! 0)
                          (assigned column0 column1 initialWorld)).
  intros w2 El Ec Em Ei Ef Hs.
  change (legend (this (scheduled initialWorld))) with (@None nat) in El.
  change (legendCount (page (scheduled initialWorld))) with 0 in Ec.
  change (mapLegends (page (scheduled initialWorld))) with (@nil nat) in Em.
  change (inited (this (scheduled initialWorld))) with true in Ei.
  change (frames (page (scheduled initialWorld)))
    with [CbInitLayersAndUI; CbInvalidateSize] in Ef.
  assert (Hlen : (0 <? length (saones (this w2))) = true).
  { rewrite Hs, length_map. destruct (values column0); [congruence|reflexivity]. }
  destruct (refreshed_adds_legend w2 Ei Hlen El) as (Rc & Rm & Rf).
  rewrite Ec, Em in *. rewrite Ef in Rf.
  generalize dependent (refreshed w2). intros w5 Rc Rm Rf.
  destruct (runFrame_init_resize w5 Rf) as (Fc & Fl & Fm).
  rewrite Rc in Fl, Fm. rewrite Rm in Fm. split; [exact Fm|exact Fl].
Qed.

End LegendFacts.

(** ** Fill colour and selection of a polygon after an update *)

Section PolygonFacts.
Context `{JsRuntime}.

(** After an update with rows and scores, a polygon whose area code is
    not among the batch's codes, or whose row has no score cell, is filled
    with the neutral grey; a polygon whose code is in the batch is filled
    with what the classifier returns for the score of the last row with
    that code. *)
Theorem fillColor_after_update (options : VisualUpdateOptions) (w : World)
    (column0 column1 : DataViewColumn) (rest : list DataViewColumn)
    (scores : DataViewColumn) (rest' : list DataViewColumn) (feature : Feature) :
  categoryColumns options = column0 :: column1 :: rest ->
  measureColumns options = scores :: rest' ->
  let codes := map (fun code => JsString (Some code)) (values column0) in
  let w' := fst (update options w) in
  let code := JsString (sa1Code feature) in
  (code ∉ codes -> fillColor feature w' = Some "#cccccc"%string) /\
  (forall n : nat,
     codes !! n = Some code -> (forall n', n < n' -> codes !! n' <> Some code) ->
     fillColor feature w' =
       match values scores !! n with
       | Some score => getColorByScore (ToNumber score)
       | None => Some "#cccccc"%string
       end).
Proof.
  intros EC EM codes w' code.
  destruct (update_tables_stored options w _ _ _ _ _ EC EM) as (Es & _).
  fold codes in Es. fold w' in Es.
  unfold fillColor, scoreOf. fold code. rewrite Es. split.
  - intros Hk.
    destruct (storeRows_notin column0 (values scores) codes 0 ∅ ∅ code Hk) as [-> _].
    rewrite lookup_empty. reflexivity.
  - intros n Hn Hlast.
    destruct (storeRows_last column0 (values scores) codes 0 ∅ ∅ n code Hn Hlast) as [-> _].
    cbn [mjoin option_join Nat.add].
    destruct (values scores !! n); reflexivity.
Qed.

(** After an update with rows, a click on a polygon loaded in that state
    sends the host the selection identifier of the last row with the
    polygon's code, as a multi-selection exactly when Ctrl or Meta is held;
    a click on a polygon with an unknown code sends nothing and changes
    nothing. *)
Theorem click_after_update (options : VisualUpdateOptions) (w w'' : World)
    (column0 column1 : DataViewColumn) (rest : list DataViewColumn)
    (scores : DataViewColumn) (rest' : list DataViewColumn) (feature : Feature)
    (ctrlKey metaKey : bool) :
  categoryColumns options = column0 :: column1 :: rest ->
  measureColumns options = scores :: rest' ->
  let codes := map (fun code => JsString (Some code)) (values column0) in
  let w' := fst (update options w) in
  let code := JsString (sa1Code feature) in
  (code ∉ codes -> click feature w' ctrlKey metaKey w'' = w'') /\
  (forall n : nat,
     codes !! n = Some code -> (forall n', n < n' -> codes !! n' <> Some code) ->
     selections (page (click feature w' ctrlKey metaKey w'')) =
       selections (page w'') ++
       [({| sel_column := column0; sel_row := n |}, ctrlKey || metaKey)] /\
     this (click feature w' ctrlKey metaKey w'') = this w'').
Proof.
  intros EC EM codes w' code.
  destruct (update_tables_stored options w _ _ _ _ _ EC EM) as (_ & Ei).
  fold codes in Ei. fold w' in Ei.
  unfold click. fold code. rewrite Ei. split.
  - intros Hk.
    destruct (storeRows_notin column0 (values scores) codes 0 ∅ ∅ code Hk) as [_ ->].
    rewrite lookup_empty. reflexivity.
  - intros n Hn Hlast.
    destruct (storeRows_last column0 (values scores) codes 0 ∅ ∅ n code Hn Hlast) as [_ ->].
    cbn [Nat.add]. world_simpl.
    split; reflexivity.
Qed.

End PolygonFacts.

(** ** Closed instances of the further properties *)

Section MoreExamples.
Local Open Scope string_scope.

(** Witness of [fillColor_after_update]: after the rows A and B, the
    polygon B (score 0.8) is filled with the colour of bucket 8 and the
    polygon Z with grey. *)
Lemma fillColor_after_update_witness :
  let w' := fst (@update textRuntime rowsAB initialWorld) in
  @fillColor textRuntime (polygon "Z") w' = Some "#cccccc" /\
  @fillColor textRuntime (polygon "B") w' = Some "#38FF00".
Proof.
  split.
  - apply (proj1 (@fillColor_after_update textRuntime rowsAB initialWorld
             {| values := [PVString "A"; PVString "B"] |}
             {| values := [PVString "cand"; PVString "cand"] |} []
             {| values := [PVNumber (lit 2 1); PVNumber (lit 8 1)] |} []
             (polygon "Z") eq_refl eq_refl)).
    apply (bool_decide_unpack _). vm_compute. exact I.
  - apply (proj2 (@fillColor_after_update textRuntime rowsAB initialWorld
             {| values := [PVString "A"; PVString "B"] |}
             {| values := [PVString "cand"; PVString "cand"] |} []
             {| values := [PVNumber (lit 2 1); PVNumber (lit 8 1)] |} []
             (polygon "B") eq_refl eq_refl) 1 eq_refl).
    intros n' Hn'. destruct n' as [|[|n']]; [lia|lia|discriminate].
Defined.

(** Witness of [click_after_update]: a Ctrl-click on the polygon B after
    the rows A and B. *)
Lemma click_after_update_witness :
  let w' := fst (@update textRuntime rowsAB initialWorld) in
  selections (page (@click textRuntime (polygon "B") w' true false w')) =
    [({| sel_column := {| values := [PVString "A"; PVString "B"] |}; sel_row := 1 |}, true)].
Proof.
  apply (proj2 (@click_after_update textRuntime rowsAB initialWorld
           (fst (@update textRuntime rowsAB initialWorld))
           {| values := [PVString "A"; PVString "B"] |}
           {| values := [PVString "cand"; PVString "cand"] |} []
           {| values := [PVNumber (lit 2 1); PVNumber (lit 8 1)] |} []
           (polygon "B") true false eq_refl eq_refl) 1 eq_refl).
  intros n' Hn'. destruct n' as [|[|n']]; [lia|lia|discriminate].
Defined.

(** Witness of [update_one_column]: the one column [C] after the rows A
    and B. *)
Lemma update_one_column_witness :
  let w := fst (@update textRuntime rowsAB initialWorld) in
  let w' := fst (@update textRuntime oneColumnC w) in
  snd (@update textRuntime oneColumnC w) =
    Throw "TypeError: Cannot read properties of undefined (reading 'values')" /\
  saones (this w') = saones (this w) /\ cands (this w') = cands (this w) /\
  scoreMap (this w') = scoreMap (this w) /\
  selectionIdMap (this w') = selectionIdMap (this w) /\
  console (page w') = console (page w) /\ inited (this w') = true.
Proof.
  exact (@update_one_column textRuntime oneColumnC
           (fst (@update textRuntime rowsAB initialWorld))
           {| values := [PVString "C"] |} eq_refl).
Defined.

(** Witness of [update_codes_without_scores]: the codes of (C, cand)
    after the rows A and B; the codes then name C, the tables A and B. *)
Lemma update_codes_without_scores_witness :
  let w := fst (@update textRuntime rowsAB initialWorld) in
  let w' := fst (@update textRuntime codesC w) in
  saones (this w') = ["C"] /\ cands (this w') = [PVString "cand"] /\
  scoreMap (this w') = scoreMap (this w) /\
  selectionIdMap (this w') = selectionIdMap (this w).
Proof.
  exact (@update_codes_without_scores textRuntime codesC
           (fst (@update textRuntime rowsAB initialWorld))
           {| values := [PVString "C"] |} {| values := [PVString "cand"] |} []
           eq_refl eq_refl).
Defined.

(** Witness of [update_queries_batch]: the rows A and B on a new visual. *)
Lemma update_queries_batch_witness :
  let w' := fst (@update textRuntime rowsAB initialWorld) in
  saonesLayer (this w') = Some 0 /\
  featureLayers (page w') =
    [{| url := tims; where_ := whereClause ["A"; "B"]; pane := "workzones";
        refreshes := 1 |}].
Proof.
  apply (@update_queries_batch textRuntime rowsAB initialWorld
           {| values := [PVString "A"; PVString "B"] |}
           {| values := [PVString "cand"; PVString "cand"] |} []);
    [reflexivity|discriminate].
Defined.

(** Witness of [update_empty_batch]: no row after the rows A and B. *)
Lemma update_empty_batch_witness :
  let w := fst (@update textRuntime rowsAB initialWorld) in
  let w' := fst (@update textRuntime noRows w) in
  saones (this w') = [] /\
  (measureColumns noRows <> [] ->
   scoreMap (this w') = ∅ /\ selectionIdMap (this w') = ∅) /\
  featureLayers (page w') = featureLayers (page w) /\
  saonesLayer (this w') = saonesLayer (this w) /\
  groups (page w') = groups (page w).
Proof.
  exact (@update_empty_batch textRuntime noRows
           (fst (@update textRuntime rowsAB initialWorld))
           {| values := [] |} {| values := [] |} [] eq_refl eq_refl).
Defined.

(** Witness of [first_update_with_rows_two_legends]: the rows A and B. *)
Lemma first_update_with_rows_two_legends_witness :
  let w := @run textRuntime [EvUpdate rowsAB; EvFrame] initialWorld in
  mapLegends (page w) = [0; 1] /\ legend (this w) = Some 1.
Proof.
  apply (@first_update_with_rows_two_legends textRuntime rowsAB
           {| values := [PVString "A"; PVString "B"] |}
           {| values := [PVString "cand"; PVString "cand"] |} []);
    [reflexivity|discriminate].
Defined.

(** Witness of [startAutoRefresh_installs]: a start with interval 0 after
    the visual was initialised stops the timer. *)
Lemma startAutoRefresh_installs_witness :
  activeTimers (startAutoRefresh js0
    (@run textRuntime [EvUpdate rowsAB; EvFrame] initialWorld)) = [].
Proof.
  exact (proj1 (@startAutoRefresh_installs textRuntime [EvUpdate rowsAB; EvFrame] js0)
           eq_refl).
Defined.

End MoreExamples.

(** ** The classifier on all numbers, and the running scheduler *)

Section WholeLineFacts.
Local Open Scope Z_scope.

Lemma saturates_index (s : number) :
  valid s = true ->
  (SFleb s js0 = true -> clampedIndex s = of_Z 0) /\
  (SFleb js1 s = true -> clampedIndex s = of_Z 9).
Proof.
  intros V. split; intros Hle.
  - destruct s as [b|b| |b m e]; try discriminate.
    + destruct b; reflexivity.
    + destruct b; [reflexivity|discriminate].
    + destruct b; [|discriminate].
      assert (N : normalized (S754_finite true m e) = js0) by reflexivity.
      unfold clampedIndex, index. rewrite N. reflexivity.
  - destruct s as [b|b| |b m e]; try discriminate.
    + destruct b; [discriminate|reflexivity].
    + destruct b; [discriminate|].
      destruct (normalized_finite_pos m e V) as [(N & _)|(N & _ & He & Hu)].
      * unfold clampedIndex, index. rewrite N. reflexivity.
      * unfold SFleb in Hle. rewrite SFcompare_js1 in Hle.
        destruct (Z.compare_spec (-52) e) as [E|L|G]; [|lia|discriminate].
        subst e.
        destruct (Z.compare_spec 4503599627370496 (Zpos m)) as [E|L|G]; [| |discriminate].
        -- injection E as <-. reflexivity.
        -- exfalso. cbn [ulps] in Hu.
           change (2 ^ 1074) with (4503599627370496 * 2 ^ (-52 + 1074)) in Hu.
           assert (0 < 2 ^ (-52 + 1074)) by (apply Z.pow_pos_nonneg; lia).
           generalize dependent (2 ^ (-52 + 1074)). intros. nia.
Qed.

Lemma below_or_above (s : number) :
  valid s = true -> is_nan s = false ->
  (SFleb s js0 = true \/ SFleb js0 s = true) /\
  (SFleb s js1 = true \/ SFleb js1 s = true).
Proof.
  intros V Hn. destruct s as [b|b| |b m e]; try discriminate.
  - split; left; reflexivity.
  - destruct b; split; ((left; reflexivity) || (right; reflexivity)).
  - destruct b; [split; left; reflexivity|].
    split; [right; reflexivity|].
    unfold SFleb. rewrite SFcompare_js1, SFcompare_to_js1.
    rewrite (Z.compare_antisym (-52) e).
    destruct (-52 ?= e); cbn [CompOpp]; auto.
    rewrite (Z.compare_antisym 4503599627370496 (Zpos m)).
    destruct (4503599627370496 ?= Zpos m); cbn [CompOpp]; auto.
Qed.

Lemma of_Z_small_inj (j1 j2 : Z) :
  0 <= j1 <= 9 -> 0 <= j2 <= 9 -> of_Z j1 = of_Z j2 -> j1 = j2.
Proof.
  intros H1 H2.
  assert (C1 : j1 = 0 \/ j1 = 1 \/ j1 = 2 \/ j1 = 3 \/ j1 = 4 \/ j1 = 5 \/ j1 = 6 \/
               j1 = 7 \/ j1 = 8 \/ j1 = 9) by lia.
  assert (C2 : j2 = 0 \/ j2 = 1 \/ j2 = 2 \/ j2 = 3 \/ j2 = 4 \/ j2 = 5 \/ j2 = 6 \/
               j2 = 7 \/ j2 = 8 \/ j2 = 9) by lia.
  repeat (destruct C1 as [->|C1]); try subst j1;
    repeat (destruct C2 as [->|C2]); try subst j2;
    vm_compute; intros E; congruence.
Qed.

(** The classifier is monotonic on all numbers: of two scores that are
    numbers, the higher never gets the lower bucket index, and both
    indices lie between 0 and 9. *)
Theorem classifier_monotone_everywhere (s1 s2 : number) :
  valid s1 = true -> valid s2 = true -> SFleb s1 s2 = true ->
  exists j1 j2 : Z,
    clampedIndex s1 = of_Z j1 /\ clampedIndex s2 = of_Z j2 /\
    bucket_index s1 = Some j1 /\ bucket_index s2 = Some j2 /\
    0 <= j1 <= j2 /\ j2 <= 9.
Proof.
  intros V1 V2 H12.
  assert (N1 : is_nan s1 = false) by (destruct s1; [reflexivity..|discriminate|reflexivity]).
  assert (N2 : is_nan s2 = false).
  { destruct s2; try reflexivity. destruct s1; discriminate. }
  destruct (any_bucket s1 V1 N1) as (j1 & Hj1 & Hb1 & Hc1 & _).
  destruct (any_bucket s2 V2 N2) as (j2 & Hj2 & Hb2 & Hc2 & _).
  exists j1, j2. repeat split; try assumption; try lia.
  destruct (below_or_above s1 V1 N1) as [[L1|G1] _].
  - pose proof (proj1 (saturates_index s1 V1) L1) as E0. rewrite Hc1 in E0.
    apply of_Z_small_inj in E0; lia.
  - destruct (below_or_above s2 V2 N2) as [_ [L2|G2]].
    + destruct (unit_bucket s1 V1 G1) as (_ & B1 & _).
      { apply (unit_interval_bounds s1 s2 V1 V2 G1 H12 L2). }
      destruct (unit_bucket s2 V2 (proj1 (unit_interval_bounds s1 s2 V1 V2 G1 H12 L2)) L2)
        as (_ & B2 & _).
      pose proof (bucket_of_ulps_mono _ _ (ulps_le s1 s2 V1 V2 G1 H12 L2)) as Hm.
      rewrite Hb1 in B1. rewrite Hb2 in B2. injection B1 as ->. injection B2 as ->.
      exact Hm.
    + pose proof (proj2 (saturates_index s2 V2) G2) as E9. rewrite Hc2 in E9.
      apply of_Z_small_inj in E9; lia.
Qed.

(** Witness of [classifier_monotone_everywhere]: the scores -0.5 and 1.5. *)
Lemma classifier_monotone_everywhere_witness :
  exists j1 j2 : Z,
    clampedIndex (SFopp (lit 5 1)) = of_Z j1 /\ clampedIndex (lit 15 1) = of_Z j2 /\
    bucket_index (SFopp (lit 5 1)) = Some j1 /\ bucket_index (lit 15 1) = Some j2 /\
    0 <= j1 <= j2 /\ j2 <= 9.
Proof.
  exact (classifier_monotone_everywhere (SFopp (lit 5 1)) (lit 15 1)
           eq_refl eq_refl eq_refl).
Defined.

End WholeLineFacts.

Section RunningFacts.
Context `{JsRuntime}.

(** What the data binder and the boundary layer leave of the scheduler. *)
Lemma running_same w w' :
  same_timers w w' -> inited (this w') = inited (this w) ->
  pendingInits (frames (page w')) = pendingInits (frames (page w)) ->
  visibilityListener (page w') = visibilityListener (page w) ->
  running w -> running w'.
Proof.
  unfold running, same_timers. intros (Et & Ei & El) Einit Ep Ev (R1 & R2 & R3 & R4 & R5 & R6).
  rewrite Et, Ei, El, Einit, Ep, Ev. repeat split; assumption.
Qed.

Lemma updateSaonesLayer_listener w :
  visibilityListener (page (updateSaonesLayer w)) = visibilityListener (page w).
Proof.
  unfold updateSaonesLayer.
  destruct (fglayer (this w)) as [g|] eqn:Eg.
  - destruct (hasLayer g w); world_simpl; rewrite Eg; world_simpl; reflexivity.
  - destruct (layerControl (this w)) as [ov|] eqn:Ec; world_simpl; rewrite ?Ec;
      world_simpl; reflexivity.
Qed.

Lemma refreshAllLayers_running w : running w -> running (refreshAllLayers w).
Proof.
  apply running_same; [apply refreshAllLayers_same_timers|..];
    unfold refreshAllLayers; destruct (saonesLayer (this w)); world_simpl; reflexivity.
Qed.

Lemma refreshed_running w : running w -> running (refreshed w).
Proof.
  intros R. unfold refreshed. destruct (_ && _); [|exact R].
  destruct (updateSaonesLayer_same_legends w) as (_ & _ & _ & Ui & Uf).
  assert (R3 : running (updateSaonesLayer w)).
  { revert R. apply running_same; [apply updateSaonesLayer_same_timers|exact Ui| |].
    - rewrite Uf. reflexivity.
    - apply updateSaonesLayer_listener. }
  revert R3. generalize (updateSaonesLayer w). intros w3.
  apply running_same; [apply updateLegend_same_timers|..];
    unfold updateLegend, addLegend; destruct (legend (this w3)); world_simpl; reflexivity.
Qed.

Lemma scheduled_running w : running w -> running (scheduled w).
Proof.
  intros R. pose proof R as (Ri & _). revert R.
  apply running_same; [apply scheduled_same_timers|..];
    unfold scheduled, pendingInits; rewrite Ri; world_simpl;
    try reflexivity; try assumption.
  rewrite List.filter_app, length_app. cbn. lia.
Qed.

Lemma update_running options w : running w -> running (fst (update options w)).
Proof.
  intros R. apply scheduled_running in R.
  destruct (update_cases options w) as [[msg ->]|[[error ->]|(c0 & c1 & sc & ->)]]; cbn [fst].
  - revert R. apply running_same; [unfold same_timers|..]; world_simpl; repeat split.
  - exact R.
  - apply refreshed_running.
    revert R. unfold stored, assigned.
    apply running_same; [unfold same_timers|..];
      destruct sc as [scores|]; try destruct (storeRows _ _ _ _ _ _);
      world_simpl; repeat split.
Qed.

Lemma runCallbacks_running cbs w :
  pendingInits cbs = 0 -> running w ->
  running (fold_left (fun w cb => runCallback cb w) cbs w).
Proof.
  revert w. induction cbs as [|cb cbs IH]; intros w Hp R; [exact R|].
  cbn [fold_left]. destruct cb; [discriminate|].
  apply IH; [exact Hp|]. cbn [runCallback].
  revert R. apply running_same; [unfold same_timers|..]; world_simpl; repeat split.
Qed.

Lemma runFrame_running w : running w -> running (runFrame w).
Proof.
  intros R. pose proof R as (_ & Rp & _). unfold runFrame.
  apply runCallbacks_running; [exact Rp|].
  revert R. apply running_same; [unfold same_timers|..]; world_simpl; repeat split.
  exact (eq_sym Rp).
Qed.

Lemma step_running w e : running w -> running (step w e).
Proof.
  intros R. destruct e as [options| |h|visible]; cbn [step].
  - apply update_running. exact R.
  - apply runFrame_running. exact R.
  - unfold tick. destruct (existsb _ _); [apply refreshAllLayers_running|]; exact R.
  - destruct (visibilityListener (page w)); [|exact R].
    unfold onVisibilityRefresh. destruct visible; [apply refreshAllLayers_running|]; exact R.
Qed.

Lemma run_running es w : running w -> running (run es w).
Proof.
  revert w. induction es as [|e es IH]; intros w Hw; [exact Hw|].
  cbn [run fold_left]. apply IH. apply step_running. exact Hw.
Qed.

Lemma initLayersAndUI_starts w :
  intervals (page w) = [] -> lastHandle (page w) = 0%Z ->
  autoRefreshTimer (this w) = None ->
  intervals (page (initLayersAndUI w)) = [(1%Z, sixHours)] /\
  lastHandle (page (initLayersAndUI w)) = 1%Z /\
  autoRefreshTimer (this (initLayersAndUI w)) = Some 1%Z /\
  visibilityListener (page (initLayersAndUI w)) = true /\
  inited (this (initLayersAndUI w)) = inited (this w) /\
  frames (page (initLayersAndUI w)) = frames (page w).
Proof.
  intros Hi Hl Ht. unfold initLayersAndUI.
  set (w2 := addLegend (on_this (set_layerControl (Some [])) w)).
  assert (A2 : intervals (page w2) = [] /\ lastHandle (page w2) = 0%Z /\
               autoRefreshTimer (this w2) = None /\
               inited (this w2) = inited (this w) /\ frames (page w2) = frames (page w)).
  { unfold w2, addLegend. world_simpl. repeat split; assumption. }
  clearbody w2. destruct A2 as (Ai & Al & At & Ain & Af).
  set (w4 := on_page (set_visibilityListener true) (startAutoRefresh sixHours w2)).
  assert (A4 : intervals (page w4) = [(1%Z, sixHours)] /\ lastHandle (page w4) = 1%Z /\
               autoRefreshTimer (this w4) = Some 1%Z /\
               visibilityListener (page w4) = true /\
               inited (this w4) = inited (this w) /\ frames (page w4) = frames (page w)).
  { unfold w4, startAutoRefresh. rewrite At. cbn [timer_set].
    change (js_lt js0 sixHours) with true. unfold setInterval. world_simpl.
    rewrite Ai, Al. repeat split; assumption. }
  clearbody w4. destruct A4 as (Bi & Bl & Bt & Bv & Bin & Bf).
  destruct (0 <? length (saones (this w4))); [|repeat split; assumption].
  destruct (updateSaonesLayer_same_timers w4) as (-> & -> & ->).
  destruct (updateSaonesLayer_same_legends w4) as (_ & _ & _ & -> & ->).
  rewrite updateSaonesLayer_listener. repeat split; assumption.
Qed.

(** The scheduler is started once: after the first update and the first
    animation frame, and after every further event, exactly the six-hour
    timer with handle 1 is active, the visual holds it, and the visibility
    listener is registered. *)
Theorem scheduler_started_once (options : VisualUpdateOptions) (es : list Event) :
  let w := run (EvUpdate options :: EvFrame :: es) initialWorld in
  intervals (page w) = [(1%Z, sixHours)] /\
  autoRefreshTimer (this w) = Some 1%Z /\ visibilityListener (page w) = true.
Proof.
  intros w.
  assert (R : running w); [|destruct R as (_ & _ & R3 & _ & R5 & R6); auto].
  subst w.
  change (run (EvUpdate options :: EvFrame :: es) initialWorld)
    with (run es (runFrame (fst (update options initialWorld)))).
  apply run_running.
  assert (U : inited (this (fst (update options initialWorld))) = true /\
              frames (page (fst (update options initialWorld))) =
                [CbInitLayersAndUI; CbInvalidateSize]).
  { destruct (update_cases options initialWorld)
      as [[msg ->]|[[error ->]|(c0 & c1 & sc & ->)]]; cbn [fst].
    - split; reflexivity.
    - split; reflexivity.
    - destruct (prepared_same_legends c0 c1 sc initialWorld) as (_ & _ & _ & Pi & Pf).
      generalize dependent (stored c0 sc (assigned c0 c1 initialWorld)). intros w2 Pi Pf.
      change (inited (this (scheduled initialWorld))) with true in Pi.
      change (frames (page (scheduled initialWorld)))
        with [CbInitLayersAndUI; CbInvalidateSize] in Pf.
      unfold refreshed. destruct (_ && _); [|split; assumption].
      destruct (updateSaonesLayer_same_legends w2) as (_ & _ & _ & Ui' & Uf').
      generalize dependent (updateSaonesLayer w2). intros w3 Ui' Uf'.
      unfold updateLegend, addLegend. destruct (legend (this w3)); world_simpl;
        split; congruence. }
  destruct U as [Uin Uf].
  pose proof (update_same_timers options initialWorld) as (Ut & Ui & Ul).
  generalize dependent (fst (update options initialWorld)). intros w1 Uin Uf Ut Ui Ul.
  change (autoRefreshTimer (this initialWorld)) with (@None Z) in Ut.
  change (intervals (page initialWorld)) with (@nil (Z * number)) in Ui.
  change (lastHandle (page initialWorld)) with 0%Z in Ul.
  unfold runFrame. rewrite Uf. cbn [fold_left runCallback].
  destruct (initLayersAndUI_starts (on_page (set_frames []) w1))
    as (Si & Sl & St & Sv & Sin & Sf); try assumption.
  generalize dependent (initLayersAndUI (on_page (set_frames []) w1)).
  intros w7 Si Sl St Sv Sin Sf.
  unfold running. world_simpl. rewrite Sf. repeat split; try assumption.
  rewrite Sin. exact Uin.
Qed.

End RunningFacts.

(** ** The current remote layer is the newest *)

Section CurrentFacts.
Context `{JsRuntime}.

Lemma same_current_trans w1 w2 w3 :
  same_current w1 w2 -> same_current w2 w3 -> same_current w1 w3.
Proof. unfold same_current. intros (? & ? & ?) (? & ? & ?). repeat split; congruence. Qed.

Lemma current_ok_same w w' : same_current w w' -> current_ok w -> current_ok w'.
Proof. unfold same_current, current_ok. intros (-> & -> & ->). auto. Qed.

Lemma updateSaonesLayer_current w : layers_ok w -> current_ok (updateSaonesLayer w).
Proof.
  intros Hok. destruct (updateSaonesLayer_group w Hok) as [Hg _].
  destruct (updateSaonesLayer_query w) as [Hs Hl].
  unfold current_ok. rewrite Hs, Hl, Hg, length_app. cbn [length]. split; [lia|reflexivity].
Qed.

Lemma refreshAllLayers_same_current w : same_current w (refreshAllLayers w).
Proof.
  unfold refreshAllLayers, refresh, same_current.
  destruct (saonesLayer (this w)) eqn:E; world_simpl; repeat split;
    try assumption; apply length_alter.
Qed.

Lemma updateLegend_same_current w : same_current w (updateLegend w).
Proof.
  unfold updateLegend, addLegend, same_current.
  destruct (legend (this w)); world_simpl; repeat split.
Qed.

Lemma startAutoRefresh_same_current ms w : same_current w (startAutoRefresh ms w).
Proof.
  unfold startAutoRefresh, same_current, setInterval, clearInterval.
  destruct (timer_set (autoRefreshTimer (this w))); destruct (js_lt js0 ms);
    world_simpl; repeat split.
Qed.

Lemma scheduled_same_current w : same_current w (scheduled w).
Proof.
  unfold scheduled, same_current. destruct (inited (this w)); world_simpl; repeat split.
Qed.

Lemma prepared_same_current column0 column1 scores w :
  same_current w (stored column0 scores (assigned column0 column1 w)).
Proof.
  pose proof (scheduled_same_current w) as (S1 & S2 & S3).
  unfold stored, assigned, same_current.
  destruct scores as [scores|]; try destruct (storeRows _ _ _ _ _ _);
    world_simpl; repeat split; assumption.
Qed.

Lemma update_current options w :
  layers_ok w -> current_ok w -> current_ok (fst (update options w)).
Proof.
  intros Hl Hc.
  destruct (update_cases options w) as [[msg ->]|[[error ->]|(c0 & c1 & sc & ->)]]; cbn [fst].
  - revert Hc. apply current_ok_same.
    eapply same_current_trans; [apply scheduled_same_current|].
    unfold same_current. world_simpl. repeat split.
  - revert Hc. apply current_ok_same, scheduled_same_current.
  - pose proof (layers_ok_same _ _ (prepared_same_layers c0 c1 sc w) Hl) as Hl2.
    pose proof (current_ok_same _ _ (prepared_same_current c0 c1 sc w) Hc) as Hc2.
    generalize dependent (stored c0 sc (assigned c0 c1 w)). intros w2 Hl2 Hc2.
    unfold refreshed. destruct (_ && _); [|exact Hc2].
    apply (current_ok_same (updateSaonesLayer w2)); [apply updateLegend_same_current|].
    apply updateSaonesLayer_current. exact Hl2.
Qed.

Lemma initLayersAndUI_current w :
  layers_ok w -> current_ok w -> current_ok (initLayersAndUI w).
Proof.
  intros Hl Hc. unfold initLayersAndUI.
  set (w1 := on_this (set_layerControl (Some [])) w).
  set (w4 := on_page (set_visibilityListener true) (startAutoRefresh sixHours (addLegend w1))).
  assert (H1 : layers_ok w1).
  { unfold layers_ok, w1 in *. world_simpl. destruct Hl as [Hg _]. split; [exact Hg|auto]. }
  assert (C1 : current_ok w1) by (unfold current_ok, w1 in *; world_simpl; exact Hc).
  assert (S : same_layers w1 w4).
  { eapply same_layers_trans; [|eapply same_layers_trans].
    - instantiate (1 := addLegend w1). unfold addLegend, same_layers. world_simpl. repeat split.
    - apply startAutoRefresh_same_layers.
    - unfold w4, same_layers. world_simpl. repeat split. }
  assert (S' : same_current w1 w4).
  { eapply same_current_trans; [|eapply same_current_trans].
    - instantiate (1 := addLegend w1). unfold addLegend, same_current. world_simpl. repeat split.
    - apply startAutoRefresh_same_current.
    - unfold w4, same_current. world_simpl. repeat split. }
  pose proof (layers_ok_same _ _ S H1) as H4.
  pose proof (current_ok_same _ _ S' C1) as C4.
  destruct (0 <? length (saones (this w4))); [|exact C4].
  apply updateSaonesLayer_current. exact H4.
Qed.

Lemma runCallbacks_current cbs w :
  layers_ok w -> current_ok w ->
  current_ok (fold_left (fun w cb => runCallback cb w) cbs w).
Proof.
  revert w. induction cbs as [|cb cbs IH]; intros w Hl Hc; [exact Hc|].
  cbn [fold_left]. destruct cb; cbn [runCallback].
  - apply IH; [apply initLayersAndUI_layers; exact Hl|apply initLayersAndUI_current; assumption].
  - apply IH.
    + revert Hl. apply layers_ok_same. unfold same_layers. world_simpl. repeat split.
    + revert Hc. apply current_ok_same. unfold same_current. world_simpl. repeat split.
Qed.

Lemma step_current w e : layers_ok w -> current_ok w -> current_ok (step w e).
Proof.
  intros Hl Hc. destruct e as [options| |h|visible]; cbn [step].
  - apply update_current; assumption.
  - unfold runFrame. apply runCallbacks_current.
    + revert Hl. apply layers_ok_same. unfold same_layers. world_simpl. repeat split.
    + revert Hc. apply current_ok_same. unfold same_current. world_simpl. repeat split.
  - unfold tick. destruct (existsb _ _); [|exact Hc].
    revert Hc. apply current_ok_same, refreshAllLayers_same_current.
  - destruct (visibilityListener (page w)); [|exact Hc].
    unfold onVisibilityRefresh. destruct visible; [|exact Hc].
    revert Hc. apply current_ok_same, refreshAllLayers_same_current.
Qed.

Lemma run_current es w : layers_ok w -> current_ok w -> current_ok (run es w).
Proof.
  revert w. induction es as [|e es IH]; intros w Hl Hc; [exact Hc|].
  cbn [run fold_left]. apply IH; [apply step_layers; exact Hl|apply step_current; assumption].
Qed.

(** In every run the current remote layer is the newest one and the
    feature group holds exactly it, so a refresh of all layers (a tick of
    the timer, the page becoming visible) asks only the newest layer to
    reload: no remote layer is made or dropped, and every older one is
    left as it is. *)
Theorem refresh_touches_newest_only (es : list Event) :
  let w := run es initialWorld in
  let n := length (featureLayers (page w)) in
  match saonesLayer (this w) with
  | Some l => n = S l /\ groups (page w) = [[l]]
  | None => n = 0 /\ groups (page w) = []
  end /\
  length (featureLayers (page (refreshAllLayers w))) = n /\
  forall l' : nat, S l' < n ->
    featureLayers (page (refreshAllLayers w)) !! l' = featureLayers (page w) !! l'.
Proof.
  intros w n.
  assert (Hc : current_ok w).
  { apply run_current; [apply initialWorld_layers_ok|]. unfold current_ok. cbn. auto. }
  split; [exact Hc|]. subst n. unfold current_ok in Hc.
  unfold refreshAllLayers, refresh.
  destruct (saonesLayer (this w)) as [l|]; world_simpl.
  - destruct Hc as [Hn _]. split; [apply length_alter|].
    intros l' Hl'. apply list_lookup_alter_ne. lia.
  - split; [reflexivity|]. intros; reflexivity.
Qed.

End CurrentFacts.
